(** * DataHandler.py: historic market-data feeds for the backtester

    A shallow embedding of [HistoricCSVDataHandler] and [SimpleCSVHandler]
    together with the parts of Python and pandas they rely on, followed by
    the properties of the feed established on that embedding. *)

From stdpp Require Import base gmap strings list sorting.
From Stdlib Require Import ZArith Lia.

(** ** Python: exceptions, results and slices *)

Module Py.

(** The exceptions that can surface in this module. *)
Inductive Exn :=
| StopIteration
| IndexError
| KeyError
| AttributeError
| FileNotFoundError
| EmptyDataError
| ParserError.

(** An evaluation either returns a value or raises. *)
Inductive Result (A : Type) :=
| Ok (a : A)
| Raise (e : Exn).
Arguments Ok {A} a.
Arguments Raise {A} e.

Definition bind {A B} (m : Result A) (k : A -> Result B) : Result B :=
  match m with
  | Ok a => k a
  | Raise e => Raise e
  end.

(** [l[start:]] for a Python int [start]: a negative start counts from
    the end, and both ends are clamped to the sequence. *)
Definition slice_from {A} (l : list A) (start : Z) : list A :=
  let n := Z.of_nat (length l) in
  let st := if (start <? 0)%Z then Z.max 0 (start + n) else Z.min start n in
  drop (Z.to_nat st) l.

(** [os.path.join(a, b)] on a POSIX system. *)
Definition os_path_join (a b : string) : string :=
  if String.prefix "/" b then b
  else if (String.eqb a "" || String.eqb (String.substring (String.length a - 1) 1 a) "/")%bool
       then a +:+ b
       else a +:+ "/" +:+ b.

End Py.
Export Py.

Notation "'let*' x ':=' m 'in' k" := (Py.bind m (fun x => k))
  (at level 10, x pattern, m at level 100, k at level 200, only parsing).

(** ** pandas: the DataFrame operations the handlers call *)

Module Pandas.

(** A cell of a parsed CSV table.  The handlers only copy cells, so a
    number is kept as an opaque payload. *)
Inductive Cell :=
| CStr (s : string)
| CNum (v : Z)
| NaN.

Definition isna (c : Cell) : bool :=
  match c with
  | NaN => true
  | _ => false
  end.

Definition Row := list Cell.

(** A frame: column labels, row labels and the rows themselves. *)
Record DataFrame := mkFrame {
  columns : list string;
  index : list Z;
  values : list Row
}.

(** [RangeIndex(n)]: the labels [0 .. n-1]. *)
Definition RangeIndex (n : nat) : list Z := Z.of_nat <$> seq 0 n.

(** [df.iterrows()]: the pairs (label, row) in order. *)
Definition iterrows (df : DataFrame) : list (Z * Row) :=
  zip (index df) (values df).

(** [df.dropna()]: keep the rows without a missing cell, labels kept. *)
Definition dropna (df : DataFrame) : DataFrame :=
  let kept := filter (fun b : Z * Row => forallb (fun c => negb (isna c)) b.2 = true)
                     (iterrows df) in
  {| columns := columns df; index := kept.*1; values := kept.*2 |}.

(** [df.reset_index(drop=True)]: relabel the rows [0 .. n-1]. *)
Definition reset_index (df : DataFrame) : DataFrame :=
  {| columns := columns df;
     index := RangeIndex (length (values df));
     values := values df |}.

(** [Index.union]: a NEW index holding the sorted union of the labels;
    neither operand is changed. *)
Fixpoint insert_label (x : Z) (l : list Z) : list Z :=
  match l with
  | [] => [x]
  | y :: l' =>
      if (x <? y)%Z then x :: l
      else if (x =? y)%Z then l
      else y :: insert_label x l'
  end.

Definition Index_union (a b : list Z) : list Z :=
  foldr insert_label [] (a ++ b).

(** Forward fill of one target label over a frame with increasing
    labels: the row of the last label not after the target, if any. *)
Fixpoint pad (idx : list Z) (rows : list Row) (t : Z) (last : option Row)
  : option Row :=
  match idx, rows with
  | i :: idx', r :: rows' =>
      if (i <=? t)%Z then pad idx' rows' t (Some r) else last
  | _, _ => last
  end.

(** [df.reindex(index=target, method='pad')]; [index=None] leaves the
    rows as they are.  A target label with nothing to fill from gets a
    row of missing cells. *)
Definition reindex (df : DataFrame) (target : option (list Z)) : DataFrame :=
  match target with
  | None => df
  | Some tl =>
      {| columns := columns df;
         index := tl;
         values := (fun t => default (replicate (length (columns df)) NaN)
                                     (pad (index df) (values df) t None)) <$> tl |}
  end.

(** A file as [pd.read_csv] finds it: the table it parses from it, a
    file with nothing to parse, or a file whose lines do not make a table. *)
Inductive File :=
| Table (df : DataFrame)
| EmptyFile
| BadLines.

(** The files on disk, by path. *)
Abbreviation FileSystem := (gmap string File).

(** [pd.read_csv(path)] with default arguments. *)
Definition read_csv (fs : FileSystem) (path : string) : Result DataFrame :=
  match fs !! path with
  | Some (Table df) => Ok df
  | Some EmptyFile => Raise EmptyDataError
  | Some BadLines => Raise ParserError
  | None => Raise FileNotFoundError
  end.

(** [row[k]] on a row Series labelled by column names: an integer key is
    taken as a position, out of range it raises. *)
Definition Series_getitem (row : Row) (k : nat) : Result Cell :=
  match row !! k with
  | Some c => Ok c
  | None => Raise IndexError
  end.

End Pandas.
Export Pandas.

(** ** Event.py *)

Inductive Event := MarketEvent.

(** A bar is the tuple a generator yields. *)
Definition Bar := list Cell.

(** The seven fields [b[1][0], ..., b[1][6]] both generators read, in
    evaluation order. *)
Definition row_fields (row : Row) : Result (list Cell) :=
  let* c0 := Series_getitem row 0 in
  let* c1 := Series_getitem row 1 in
  let* c2 := Series_getitem row 2 in
  let* c3 := Series_getitem row 3 in
  let* c4 := Series_getitem row 4 in
  let* c5 := Series_getitem row 5 in
  let* c6 := Series_getitem row 6 in
  Ok [c0; c1; c2; c3; c4; c5; c6].

(** The state of a generator object, as [inspect.getgeneratorstate]
    names it. *)
Inductive GenState := GEN_CREATED | GEN_SUSPENDED | GEN_CLOSED.

(** ** HistoricCSVDataHandler *)

Module HistoricCSVDataHandler.

(** What [self.symbol_data[s]] holds: the loaded frame while the files
    are read, then the [iterrows()] generator over the reindexed frame,
    kept as the rows it has still to produce. *)
Inductive SymbolData :=
| Frame (df : DataFrame)
| RowIter (rows : list (Z * Row)).

Record t := mk {
  events : list Event;
  csv_dir : string;
  symbol_list : list string;
  symbol_data : gmap string SymbolData;
  latest_symbol_data : gmap string (list Bar);
  continue_backtest : bool;
  new_bar : gmap string GenState
}.

(** First loop of [_new_open_convert_csv_files].  The result of
    [comb_index.union(...)] is not bound to anything. *)
Fixpoint load_csv_files (fs : FileSystem) (dir : string) (l : list string)
    (sd : gmap string SymbolData) (lsd : gmap string (list Bar))
    (comb_index : option (list Z))
  : Result (gmap string SymbolData * gmap string (list Bar) * option (list Z)) :=
  match l with
  | [] => Ok (sd, lsd, comb_index)
  | s :: l' =>
      let* raw := read_csv fs (os_path_join dir (s +:+ ".csv")) in
      let df := reset_index (dropna raw) in
      let sd := <[s := Frame df]> sd in
      let comb_index :=
        match comb_index with
        | None => Some (index df)
        | Some c => let _ := Index_union c (index df) in Some c
        end in
      let lsd := <[s := []]> lsd in
      load_csv_files fs dir l' sd lsd comb_index
  end.

(** Second loop: reindex every frame and keep its [iterrows()]
    generator.  A generator has no [reindex] attribute. *)
Fixpoint reindex_frames (l : list string) (comb_index : option (list Z))
    (sd : gmap string SymbolData) : Result (gmap string SymbolData) :=
  match l with
  | [] => Ok sd
  | s :: l' =>
      match sd !! s with
      | None => Raise KeyError
      | Some (RowIter _) => Raise AttributeError
      | Some (Frame df) =>
          reindex_frames l' comb_index
            (<[s := RowIter (iterrows (reindex df comb_index))]> sd)
      end
  end.

Definition _new_open_convert_csv_files (fs : FileSystem) (dir : string)
    (l : list string) (sd : gmap string SymbolData) (lsd : gmap string (list Bar))
  : Result (gmap string SymbolData * gmap string (list Bar) * option (list Z)) :=
  let* (sd, lsd, comb_index) := load_csv_files fs dir l sd lsd None in
  let* sd := reindex_frames l comb_index sd in
  Ok (sd, lsd, comb_index).

(** [__init__]; the dict comprehension creates one generator per
    symbol, none of them started. *)
Definition __init__ (fs : FileSystem) (events : list Event) (csv_dir : string)
    (symbol_list : list string) : Result t :=
  let* (sd, lsd, _) := _new_open_convert_csv_files fs csv_dir symbol_list ∅ ∅ in
  Ok {| events := events;
        csv_dir := csv_dir;
        symbol_list := symbol_list;
        symbol_data := sd;
        latest_symbol_data := lsd;
        continue_backtest := true;
        new_bar := foldl (fun m s => <[s := GEN_CREATED]> m) ∅ symbol_list |}.

(** One [next()] on the generator [_get_new_bar(symbol)], whose state is
    [g] and which draws from [self.symbol_data[symbol]], here [d].
    Returns the outcome, the generator's new state and what is left in
    [self.symbol_data[symbol]].  A generator that raises is closed.
    Iterating a frame (never the case once [__init__] has returned)
    yields its column labels, on which [b[1][1]] is out of range. *)
Definition _get_new_bar (symbol : string) (g : GenState) (d : option SymbolData)
  : Result Bar * GenState * option SymbolData :=
  match g with
  | GEN_CLOSED => (Raise StopIteration, GEN_CLOSED, d)
  | _ =>
      match d with
      | None => (Raise KeyError, GEN_CLOSED, d)
      | Some (Frame df) =>
          (match columns df with
           | [] => Raise StopIteration
           | _ => Raise IndexError
           end, GEN_CLOSED, d)
      | Some (RowIter []) => (Raise StopIteration, GEN_CLOSED, d)
      | Some (RowIter (b :: rest)) =>
          match row_fields b.2 with
          | Ok cs => (Ok (CStr symbol :: cs), GEN_SUSPENDED, Some (RowIter rest))
          | Raise e => (Raise e, GEN_CLOSED, Some (RowIter rest))
          end
      end
  end.

(** [get_latest_bars]: the value returned ([None] when the function
    falls off its end) and the lines printed. *)
Definition get_latest_bars (h : t) (symbol : string) (N : Z)
  : option (list Bar) * list string :=
  match latest_symbol_data h !! symbol with
  | None => (None, ["That symbol is not available in the historical data set."])
  | Some bars_list => (Some (slice_from bars_list (- N)), [])
  end.

(** The body of the [for s in self.symbol_list] loop of [update_bars]:
    the handler afterwards and the exception that escapes, if any.  Only
    [StopIteration] is caught.  A bar is a tuple, never [None], so the
    test [bar is not None] always passes. *)
Definition update_symbol (s : string) (h : t) : t * option Exn :=
  match new_bar h !! s with
  | None => (h, Some KeyError)
  | Some g =>
      let '(r, g', d') := _get_new_bar s g (symbol_data h !! s) in
      let h1 := {| events := events h;
                   csv_dir := csv_dir h;
                   symbol_list := symbol_list h;
                   symbol_data := partial_alter (fun _ => d') s (symbol_data h);
                   latest_symbol_data := latest_symbol_data h;
                   continue_backtest := continue_backtest h;
                   new_bar := <[s := g']> (new_bar h) |} in
      match r with
      | Raise StopIteration =>
          ({| events := events h1;
              csv_dir := csv_dir h1;
              symbol_list := symbol_list h1;
              symbol_data := symbol_data h1;
              latest_symbol_data := latest_symbol_data h1;
              continue_backtest := false;
              new_bar := new_bar h1 |}, None)
      | Raise e => (h1, Some e)
      | Ok bar =>
          match latest_symbol_data h1 !! s with
          | None => (h1, Some KeyError)
          | Some bars_list =>
              ({| events := events h1;
                  csv_dir := csv_dir h1;
                  symbol_list := symbol_list h1;
                  symbol_data := symbol_data h1;
                  latest_symbol_data := <[s := bars_list ++ [bar]]> (latest_symbol_data h1);
                  continue_backtest := continue_backtest h1;
                  new_bar := new_bar h1 |}, None)
          end
      end
  end.

Fixpoint update_loop (l : list string) (h : t) : t * option Exn :=
  match l with
  | [] => (h, None)
  | s :: l' =>
      match update_symbol s h with
      | (h', None) => update_loop l' h'
      | (h', Some e) => (h', Some e)
      end
  end.

(** [update_bars]: the notification is pushed only if the loop ran to
    its end. *)
Definition update_bars (h : t) : t * option Exn :=
  match update_loop (symbol_list h) h with
  | (h', None) =>
      ({| events := events h' ++ [MarketEvent];
          csv_dir := csv_dir h';
          symbol_list := symbol_list h';
          symbol_data := symbol_data h';
          latest_symbol_data := latest_symbol_data h';
          continue_backtest := continue_backtest h';
          new_bar := new_bar h' |}, None)
  | (h', Some e) => (h', Some e)
  end.

End HistoricCSVDataHandler.

(** ** SimpleCSVHandler *)

Module SimpleCSVHandler.

(** The generator [_get_new_bar()] owns the [iterrows()] it iterates:
    once started it carries the rows still to come. *)
Inductive Gen :=
| Created
| Suspended (rows : list (Z * Row))
| Closed.

Record t := mk {
  events : list Event;
  csv : string;
  latest_symbol_data : list Bar;
  continue_backtest : bool;
  bars : DataFrame;
  new_bar : Gen
}.

Definition __init__ (fs : FileSystem) (events : list Event) (csv : string)
  : Result t :=
  let* raw := read_csv fs csv in
  Ok {| events := events;
        csv := csv;
        latest_symbol_data := [];
        continue_backtest := true;
        bars := reset_index (dropna raw);
        new_bar := Created |}.

Definition gen_rows (bars : DataFrame) (g : Gen) : option (list (Z * Row)) :=
  match g with
  | Created => Some (iterrows bars)
  | Suspended rows => Some rows
  | Closed => None
  end.

(** One [next()] on the generator. *)
Definition _get_new_bar (bars : DataFrame) (g : Gen) : Result Bar * Gen :=
  match gen_rows bars g with
  | None => (Raise StopIteration, Closed)
  | Some [] => (Raise StopIteration, Closed)
  | Some (b :: rest) =>
      match row_fields b.2 with
      | Ok cs => (Ok cs, Suspended rest)
      | Raise e => (Raise e, Closed)
      end
  end.

Definition get_latest_bars (h : t) (symbol : option string) (N : Z) : list Bar :=
  slice_from (latest_symbol_data h) (- N).

Definition update_bars (h : t) : t * option Exn :=
  let '(r, g') := _get_new_bar (bars h) (new_bar h) in
  match r with
  | Raise StopIteration =>
      ({| events := events h ++ [MarketEvent];
          csv := csv h;
          latest_symbol_data := latest_symbol_data h;
          continue_backtest := false;
          bars := bars h;
          new_bar := g' |}, None)
  | Raise e =>
      ({| events := events h;
          csv := csv h;
          latest_symbol_data := latest_symbol_data h;
          continue_backtest := continue_backtest h;
          bars := bars h;
          new_bar := g' |}, Some e)
  | Ok bar =>
      ({| events := events h ++ [MarketEvent];
          csv := csv h;
          latest_symbol_data := latest_symbol_data h ++ [bar];
          continue_backtest := continue_backtest h;
          bars := bars h;
          new_bar := g' |}, None)
  end.

End SimpleCSVHandler.

(** ** Notions used to state the properties *)

Module Cursor.

(** The cursor of one symbol of the historic handler: its generator's
    state and the entry of [symbol_data] the generator draws from. *)
Definition t : Type := GenState * option HistoricCSVDataHandler.SymbolData.

Definition advance (symbol : string) (c : t) : Result Bar * t :=
  let '(r, g, d) := HistoricCSVDataHandler._get_new_bar symbol c.1 c.2 in
  (r, (g, d)).

(** The cursor after [n] advances. *)
Fixpoint after (symbol : string) (n : nat) (c : t) : t :=
  match n with
  | O => c
  | S n' => after symbol n' (advance symbol c).2
  end.

(** The cursor of the single-series handler. *)
Definition simple_advance (bars : DataFrame) (g : SimpleCSVHandler.Gen)
  : Result Bar * SimpleCSVHandler.Gen :=
  SimpleCSVHandler._get_new_bar bars g.

Fixpoint simple_after (bars : DataFrame) (n : nat) (g : SimpleCSVHandler.Gen)
  : SimpleCSVHandler.Gen :=
  match n with
  | O => g
  | S n' => simple_after bars n' (simple_advance bars g).2
  end.

(** A bar with the instrument identifier attached: the identifier,
    then the seven fields of the row. *)
Definition tagged (symbol : string) (fields : list Cell) (bar : Bar) : Prop :=
  bar = CStr symbol :: fields.

End Cursor.

(** Handler-level notions for the historic handler. *)
Module Feed.
Import HistoricCSVDataHandler.

(** The frame [_new_open_convert_csv_files] loads for a symbol, before
    it is reindexed: the instrument's native rows. *)
Definition native (fs : FileSystem) (dir : string) (s : string) : option DataFrame :=
  match read_csv fs (os_path_join dir (s +:+ ".csv")) with
  | Ok raw => Some (reset_index (dropna raw))
  | Raise _ => None
  end.

(** The cursor of a symbol inside a handler. *)
Definition cursor_of (h : t) (s : string) : option Cursor.t :=
  (fun g => (g, symbol_data h !! s)) <$> new_bar h !! s.

(** The history of a symbol: the bars delivered so far. *)
Definition History (h : t) (s : string) : list Bar :=
  default [] (latest_symbol_data h !! s).

(** What one pass of the loop body reads and writes for a symbol. *)
Definition view (h : t) (s : string)
  : option GenState * option SymbolData * option (list Bar) :=
  (new_bar h !! s, symbol_data h !! s, latest_symbol_data h !! s).

Definition step_view (s : string)
    (v : option GenState * option SymbolData * option (list Bar))
  : option GenState * option SymbolData * option (list Bar) :=
  match v with
  | (None, d, l) => (None, d, l)
  | (Some g, d, l) =>
      let '(r, c') := Cursor.advance s (g, d) in
      (Some c'.1, c'.2,
       match r, l with
       | Ok bar, Some bars_list => Some (bars_list ++ [bar])
       | _, _ => l
       end)
  end.

(** The exception that escapes one pass of the loop body, if any. *)
Definition step_exn (s : string)
    (v : option GenState * option SymbolData * option (list Bar)) : option Exn :=
  match v with
  | (None, _, _) => Some KeyError
  | (Some g, d, l) =>
      match (Cursor.advance s (g, d)).1, l with
      | Raise StopIteration, _ => None
      | Raise e, _ => Some e
      | Ok _, None => Some KeyError
      | Ok _, Some _ => None
      end
  end.

(** Whether the pass finds the symbol's cursor exhausted. *)
Definition step_exhausted (s : string)
    (v : option GenState * option SymbolData * option (list Bar)) : bool :=
  match v with
  | (None, _, _) => false
  | (Some g, d, _) =>
      match (Cursor.advance s (g, d)).1 with
      | Raise StopIteration => true
      | _ => false
      end
  end.

(** [n] calls of [update_bars] in a row, whatever each one raises. *)
Fixpoint update_bars_n (n : nat) (h : t) : t :=
  match n with
  | O => h
  | S n' => update_bars_n n' (update_bars h).1
  end.

(** The handlers a driving loop can hold: built by [__init__] over the
    files [fs], then updated any number of times. *)
Inductive reachable (fs : FileSystem) : t -> Prop :=
| reachable_init events dir l h :
    __init__ fs events dir l = Ok h -> reachable fs h
| reachable_update h :
    reachable fs h -> reachable fs (update_bars h).1.

(** What [__init__] establishes and [update_bars] keeps. *)
Record wf (h : t) : Prop := {
  wf_nodup : NoDup (symbol_list h);
  wf_gen : forall s, s ∈ symbol_list h -> is_Some (new_bar h !! s);
  wf_data : forall s, s ∈ symbol_list h ->
              exists rows, symbol_data h !! s = Some (RowIter rows);
  wf_hist : forall s, is_Some (latest_symbol_data h !! s) <-> s ∈ symbol_list h
}.

(** Every row still to be served has the seven fields a bar reads. *)
Definition rows_ok (h : t) : Prop :=
  forall s rows, symbol_data h !! s = Some (RowIter rows) ->
                 Forall (fun b : Z * Row => 7 <= length b.2) rows.

(** A table as wide as the seven columns a bar is read from, every row
    as long as the header. *)
Definition seven_columns (df : DataFrame) : Prop :=
  7 <= length (columns df) /\
  Forall (fun row : Row => length row = length (columns df)) (values df).

(** Every file on disk is such a table. *)
Definition all_seven_columns (fs : FileSystem) : Prop :=
  forall path df, fs !! path = Some (Table df) -> seven_columns df.

(** The rows a symbol's generator has still to serve. *)
Definition series (h : t) (s : string) : list (Z * Row) :=
  match symbol_data h !! s with
  | Some (RowIter rows) => rows
  | _ => []
  end.

(** The bar [_get_new_bar(s)] builds from a row that has its seven fields. *)
Definition bar_of (s : string) (b : Z * Row) : Bar := CStr s :: take 7 b.2.

(** A bar without a missing cell. *)
Definition complete (bar : Bar) : Prop :=
  Forall (fun c => isna c = false) bar.

End Feed.

(** Handler-level notions for the single-series handler. *)
Module SimpleFeed.
Import SimpleCSVHandler.

Fixpoint update_bars_n (n : nat) (h : t) : t :=
  match n with
  | O => h
  | S n' => update_bars_n n' (update_bars h).1
  end.

Inductive reachable (fs : FileSystem) : t -> Prop :=
| simple_reachable_init events csv h :
    __init__ fs events csv = Ok h -> reachable fs h
| simple_reachable_update h :
    reachable fs h -> reachable fs (update_bars h).1.


(** Every row still to be served has the seven fields a bar reads. *)
Definition rows_ok (h : t) : Prop :=
  forall rows, gen_rows (bars h) (new_bar h) = Some rows ->
               Forall (fun b : Z * Row => 7 <= length b.2) rows.

(** The rows of the handler's table, in the order they are served. *)
Definition series (h : t) : list (Z * Row) := iterrows (bars h).

(** The bar [_get_new_bar()] builds from a row that has its seven fields. *)
Definition bar_of (b : Z * Row) : Bar := take 7 b.2.

End SimpleFeed.

(** The unified timeline as the specification words it: the sorted union
    of the native label sets of all the symbols' frames. *)
Definition spec_unified_timeline (fs : FileSystem) (dir : string) (l : list string)
  : list Z :=
  foldr (fun s acc =>
           Index_union (default [] (index <$> Feed.native fs dir s)) acc) [] l.

(** Sample files used to run the handlers. *)
Module Samples.

Definition yahoo : list string :=
  ["Date"; "Open"; "High"; "Low"; "Close"; "Adj Close"; "Volume"].

Definition quote (date : string) (price : Z) : Row :=
  [CStr date; CNum price; CNum (price + 2); CNum (price - 1);
   CNum (price + 1); CNum (price + 1); CNum 1000].

(** One row. *)
Definition short_table : DataFrame :=
  {| columns := yahoo; index := RangeIndex 1; values := [quote "2020-01-02" 10] |}.

(** Three rows, the second with missing prices. *)
Definition long_table : DataFrame :=
  {| columns := yahoo;
     index := RangeIndex 3;
     values := [quote "2020-01-02" 20;
                [CStr "2020-01-03"; NaN; NaN; NaN; NaN; NaN; NaN];
                quote "2020-01-06" 22] |}.

(** A table without the price and volume columns. *)
Definition dates_only : DataFrame :=
  {| columns := ["Date"; "Open"];
     index := RangeIndex 1;
     values := [[CStr "2020-01-02"; CNum 10]] |}.

Definition disk : FileSystem :=
  <["data/AAPL.csv" := Table short_table]>
    (<["data/MSFT.csv" := Table long_table]>
       (<["data/BAD.csv" := Table dates_only]> ∅)).

(** The two well-formed files only. *)
Definition good_disk : FileSystem :=
  <["data/AAPL.csv" := Table short_table]> (<["data/MSFT.csv" := Table long_table]> ∅).

(** The handlers [__init__] builds over these files. *)
Definition historic_over (fs : FileSystem) (l : list string)
  : HistoricCSVDataHandler.t :=
  match HistoricCSVDataHandler.__init__ fs [] "data" l with
  | Ok h => h
  | Raise _ => HistoricCSVDataHandler.mk [] "" [] ∅ ∅ true ∅
  end.

Definition simple_over (fs : FileSystem) (csv : string) : SimpleCSVHandler.t :=
  match SimpleCSVHandler.__init__ fs [] csv with
  | Ok h => h
  | Raise _ => SimpleCSVHandler.mk [] "" [] true (mkFrame [] [] []) SimpleCSVHandler.Created
  end.

(** A table whose only row has missing prices, beside the good files. *)
Definition gap_table : DataFrame :=
  {| columns := yahoo;
     index := RangeIndex 1;
     values := [[CStr "2020-01-02"; NaN; NaN; NaN; NaN; NaN; CNum 0]] |}.

Definition gap_disk : FileSystem := <["data/GAP.csv" := Table gap_table]> good_disk.

(** The good files beside a zero-byte file and a file with ragged lines. *)
Definition broken_disk : FileSystem :=
  <["data/ZERO.csv" := EmptyFile]> (<["data/RAGGED.csv" := BadLines]> good_disk).

End Samples.

(** * Properties *)

(** ** Slices and [get_latest_bars] *)

Section Slices.
Context {A : Type}.
Implicit Types (l : list A) (N : Z).

Lemma slice_from_neg_zero l : slice_from l (- 0) = l.
Proof. unfold slice_from. simpl. rewrite Z.min_l by lia. reflexivity. Qed.

(** For a positive count the slice is the suffix of that many
    elements, or everything when there are fewer. *)
Lemma slice_from_last l N :
  (1 <= N)%Z ->
  slice_from l (- N) = drop (length l - Z.to_nat N) l.
Proof.
  intros HN. unfold slice_from.
  destruct (Z.ltb_spec (- N) 0) as [_|?]; [|lia].
  f_equal. lia.
Qed.

Lemma slice_from_last_length l N :
  (1 <= N)%Z ->
  length (slice_from l (- N)) = Nat.min (Z.to_nat N) (length l).
Proof.
  intros HN. rewrite slice_from_last by done. rewrite length_drop. lia.
Qed.

(** A negative count drops that many elements from the front. *)
Lemma slice_from_negative_count l N :
  (N < 0)%Z ->
  slice_from l (- N) = drop (Z.to_nat (- N)) l.
Proof.
  intros HN. unfold slice_from.
  destruct (Z.ltb_spec (- N) 0) as [?|_]; [lia|].
  destruct (Z.min_spec (- N) (Z.of_nat (length l))) as [[? ->]|[? ->]]; [done|].
  rewrite Nat2Z.id, !drop_ge; [done | lia | lia].
Qed.

Lemma slice_from_suffix l start : slice_from l start `suffix_of` l.
Proof. apply suffix_drop. Qed.

End Slices.

(** ** Cursors *)

Lemma row_fields_length row cs : row_fields row = Ok cs -> length cs = 7.
Proof.
  unfold row_fields, Series_getitem, Py.bind. intros H.
  repeat match type of H with
         | context [row !! ?k] => destruct (row !! k); [|discriminate]
         end.
  by inversion H.
Qed.

Lemma row_fields_take row cs : row_fields row = Ok cs -> cs = take 7 row.
Proof.
  unfold row_fields, Series_getitem, Py.bind. intros H.
  do 7 (destruct row as [|? row]; [discriminate|]).
  simpl in H. by inversion H.
Qed.

Lemma row_fields_ok row : 7 <= length row -> exists cs, row_fields row = Ok cs.
Proof.
  intros H. do 7 (destruct row as [|? row]; [simpl in H; lia|]).
  eexists. reflexivity.
Qed.

Lemma row_fields_short row : length row < 7 -> row_fields row = Raise IndexError.
Proof.
  intros H.
  do 7 (destruct row as [|? row]; [reflexivity|]).
  simpl in H. lia.
Qed.

Lemma advance_closed symbol d :
  Cursor.advance symbol (GEN_CLOSED, d) = (Raise StopIteration, (GEN_CLOSED, d)).
Proof. reflexivity. Qed.

(** A cursor that signals exhaustion is closed afterwards. *)
Lemma advance_exhausted_closed symbol c c' :
  Cursor.advance symbol c = (Raise StopIteration, c') -> c'.1 = GEN_CLOSED.
Proof.
  destruct c as [g d]. unfold Cursor.advance, HistoricCSVDataHandler._get_new_bar.
  simpl. intros H.
  destruct g; try (by inversion H);
    (destruct d as [[df|[|b rest]]|]; [destruct (columns df)| |destruct (row_fields b.2)|]);
    by inversion H.
Qed.

Lemma after_closed symbol n d :
  Cursor.after symbol n (GEN_CLOSED, d) = (GEN_CLOSED, d).
Proof. induction n as [|n IH]; [done|]. simpl. apply IH. Qed.

Lemma simple_advance_exhausted_closed bars g g' :
  Cursor.simple_advance bars g = (Raise StopIteration, g') ->
  g' = SimpleCSVHandler.Closed.
Proof.
  unfold Cursor.simple_advance, SimpleCSVHandler._get_new_bar. intros H.
  destruct (SimpleCSVHandler.gen_rows bars g) as [[|b rest]|];
    [| destruct (row_fields b.2) |]; by inversion H.
Qed.

Lemma simple_after_closed bars n :
  Cursor.simple_after bars n SimpleCSVHandler.Closed = SimpleCSVHandler.Closed.
Proof. induction n as [|n IH]; [done|]. simpl. apply IH. Qed.

(** C5: once a cursor's advance signals exhaustion (StopIteration), every
    later advance of that cursor signals exhaustion again and nothing
    else, in both handlers: no other exception is ever raised from it. *)
Theorem exhausted_cursor_stays_exhausted
    (symbol : string) (c c' : Cursor.t)
    (bars : DataFrame) (g g' : SimpleCSVHandler.Gen) (n : nat) :
  (Cursor.advance symbol c = (Raise StopIteration, c') ->
   (Cursor.advance symbol (Cursor.after symbol n c')).1 = Raise StopIteration) /\
  (Cursor.simple_advance bars g = (Raise StopIteration, g') ->
   (Cursor.simple_advance bars (Cursor.simple_after bars n g')).1 = Raise StopIteration).
Proof.
  split.
  - intros H1. apply advance_exhausted_closed in H1.
    destruct c' as [gc d]. simpl in H1. subst gc.
    by rewrite after_closed.
  - intros H2. apply simple_advance_exhausted_closed in H2. subst g'.
    by rewrite simple_after_closed.
Qed.

(** ** pandas: labels and forward fill *)

Lemma read_csv_ok fs path df :
  read_csv fs path = Ok df <-> fs !! path = Some (Table df).
Proof.
  unfold read_csv. split.
  - destruct (fs !! path) as [[df'| |]|]; intros H; by inversion H.
  - by intros ->.
Qed.

Lemma RangeIndex_length n : length (RangeIndex n) = n.
Proof. unfold RangeIndex. by rewrite length_fmap, length_seq. Qed.

Lemma RangeIndex_lookup n k : k < n -> RangeIndex n !! k = Some (Z.of_nat k).
Proof.
  intros H. unfold RangeIndex. rewrite list_lookup_fmap, lookup_seq_lt by done.
  reflexivity.
Qed.

Lemma seq_labels_sorted a n : StronglySorted Z.lt (Z.of_nat <$> seq a n).
Proof.
  revert a. induction n as [|n IH]; intros a; simpl; constructor.
  - apply IH.
  - apply Forall_forall. intros x Hx.
    apply list_elem_of_fmap in Hx as (k & -> & Hk).
    apply elem_of_seq in Hk. lia.
Qed.

Lemma RangeIndex_sorted n : StronglySorted Z.lt (RangeIndex n).
Proof. apply seq_labels_sorted. Qed.

(** The scan stops at the first label after the target. *)
Lemma pad_stop idx rows t last :
  StronglySorted Z.lt idx ->
  (forall v, v ∈ idx -> (t < v)%Z) ->
  pad idx rows t last = last.
Proof.
  intros _ Hgt. destruct idx as [|i idx], rows as [|r rows]; try done.
  simpl. destruct (Z.leb_spec i t) as [Hle|]; [|done].
  specialize (Hgt i ltac:(left)). lia.
Qed.

(** Forward fill picks the row of the latest label not after the target. *)
Lemma pad_latest idx rows t last j u row :
  StronglySorted Z.lt idx ->
  idx !! j = Some u ->
  rows !! j = Some row ->
  (u <= t)%Z ->
  (forall v, v ∈ idx -> (v <= t)%Z -> (v <= u)%Z) ->
  pad idx rows t last = Some row.
Proof.
  intros Hs. revert rows last j.
  induction Hs as [|i idx Hs IH Hall]; intros rows last j Hj Hr Hu Hmax; [done|].
  destruct rows as [|r rows]; [done|].
  rewrite Forall_forall in Hall.
  destruct j as [|j]; simpl in Hj, Hr.
  - inversion Hj; inversion Hr; subst. simpl.
    destruct (Z.leb_spec u t) as [_|]; [|lia].
    apply pad_stop; [done|]. intros v Hv.
    destruct (Z.le_gt_cases v t) as [Hle|]; [|lia].
    specialize (Hmax v ltac:(by right) Hle).
    specialize (Hall v Hv). lia.
  - assert (i < u)%Z.
    { apply Hall. by eapply list_elem_of_lookup_2. }
    simpl. destruct (Z.leb_spec i t) as [_|]; [|lia].
    eapply IH; eauto. intros v Hv. apply Hmax. by right.
Qed.

(** A target label before every native label has nothing to fill from. *)
Lemma pad_nothing idx rows t :
  StronglySorted Z.lt idx ->
  (forall v, v ∈ idx -> (t < v)%Z) ->
  pad idx rows t None = None.
Proof. apply pad_stop. Qed.

Lemma reindex_index df tl : index (reindex df (Some tl)) = tl.
Proof. reflexivity. Qed.

Lemma reindex_values_length df tl : length (values (reindex df (Some tl))) = length tl.
Proof. simpl. by rewrite length_fmap. Qed.

Lemma iterrows_reindex_length df tl :
  length (iterrows (reindex df (Some tl))) = length tl.
Proof. unfold iterrows. rewrite length_zip, reindex_values_length. simpl. lia. Qed.

Lemma iterrows_reindex_labels df tl : (iterrows (reindex df (Some tl))).*1 = tl.
Proof.
  unfold iterrows. apply fst_zip. rewrite reindex_values_length. simpl. lia.
Qed.

Lemma iterrows_reindex_lookup df tl k t :
  tl !! k = Some t ->
  iterrows (reindex df (Some tl)) !! k
  = Some (t, default (replicate (length (columns df)) NaN)
                     (pad (index df) (values df) t None)).
Proof.
  intros H. unfold iterrows. simpl.
  rewrite lookup_zip_with, H. simpl. rewrite list_lookup_fmap, H. reflexivity.
Qed.

(** The frame loaded for a symbol is labelled [0 .. n-1]. *)
Lemma native_frame_index raw :
  index (reset_index (dropna raw)) = RangeIndex (length (values (reset_index (dropna raw)))).
Proof. reflexivity. Qed.

(** ** Construction of the historic handler *)

Section Construction.
Import HistoricCSVDataHandler Feed.
Variable fs : FileSystem.
Variable dir : string.

Lemma load_csv_files_inv l : forall sd lsd comb sd' lsd' comb',
  load_csv_files fs dir l sd lsd comb = Ok (sd', lsd', comb') ->
  (forall s, s ∈ l ->
     exists df, native fs dir s = Some df /\
                sd' !! s = Some (Frame df) /\ lsd' !! s = Some []) /\
  (forall s, s ∉ l -> sd' !! s = sd !! s /\ lsd' !! s = lsd !! s) /\
  comb' = match comb with
          | Some c => Some c
          | None => match l with
                    | [] => None
                    | s :: _ => index <$> native fs dir s
                    end
          end.
Proof.
  induction l as [|s0 l IH]; intros sd lsd comb sd' lsd' comb' H.
  - simpl in H. inversion H; subst. repeat split; try done.
    + intros s Hs. by apply elem_of_nil in Hs.
    + by destruct comb'.
  - simpl in H.
    destruct (read_csv fs (os_path_join dir (s0 +:+ ".csv"))) as [raw|e] eqn:Hraw;
      [|discriminate].
    simpl in H. apply IH in H as (Hin & Hout & Hcomb).
    assert (Hnat : native fs dir s0 = Some (reset_index (dropna raw))).
    { unfold native. by rewrite Hraw. }
    repeat split.
    + intros s Hs. destruct (decide (s ∈ l)) as [Hl|Hl]; [by apply Hin|].
      apply elem_of_cons in Hs as [->|Hs]; [|done].
      destruct (Hout s0 Hl) as [-> ->].
      rewrite !lookup_insert_eq. eauto.
    + apply not_elem_of_cons in H as [Hne Hl].
      destruct (Hout s Hl) as [-> _]. by rewrite lookup_insert_ne.
    + apply not_elem_of_cons in H as [Hne Hl].
      destruct (Hout s Hl) as [_ ->]. by rewrite lookup_insert_ne.
    + rewrite Hcomb, Hnat. by destruct comb.
Qed.

Lemma load_csv_files_ok l : forall sd lsd comb,
  (forall s, s ∈ l -> is_Some (native fs dir s)) ->
  exists r, load_csv_files fs dir l sd lsd comb = Ok r.
Proof.
  induction l as [|s0 l IH]; intros sd lsd comb Hfiles; [by eexists|].
  simpl.
  destruct (Hfiles s0 ltac:(left)) as [df Hdf]. unfold native in Hdf.
  destruct (read_csv fs (os_path_join dir (s0 +:+ ".csv"))) as [raw|e]; [|discriminate].
  simpl. apply IH. intros s Hs. apply Hfiles. by right.
Qed.

(** A symbol listed twice meets its own generator in the second loop. *)
Lemma reindex_frames_generator l : forall comb sd s rows,
  s ∈ l -> sd !! s = Some (RowIter rows) ->
  forall sd', reindex_frames l comb sd <> Ok sd'.
Proof.
  induction l as [|s0 l IH]; intros comb sd s rows Hs Hsd sd';
    [by apply elem_of_nil in Hs|].
  simpl. destruct (decide (s0 = s)) as [->|Hne].
  - by rewrite Hsd.
  - apply elem_of_cons in Hs as [->|Hs]; [done|].
    destruct (sd !! s0) as [[df|r0]|]; try done.
    eapply IH; [done|]. rewrite lookup_insert_ne; done.
Qed.

Lemma reindex_frames_inv l : forall comb sd sd',
  reindex_frames l comb sd = Ok sd' ->
  (forall s, s ∈ l -> exists df, sd !! s = Some (Frame df)) ->
  NoDup l /\
  (forall s df, s ∈ l -> sd !! s = Some (Frame df) ->
     sd' !! s = Some (RowIter (iterrows (reindex df comb)))) /\
  (forall s, s ∉ l -> sd' !! s = sd !! s).
Proof.
  induction l as [|s0 l IH]; intros comb sd sd' H Hframes.
  - simpl in H. inversion H; subst. repeat split; try done.
    + constructor.
    + intros s df Hs. by apply elem_of_nil in Hs.
  - simpl in H. destruct (Hframes s0 ltac:(left)) as [df0 Hdf0].
    rewrite Hdf0 in H.
    assert (Hnotin : s0 ∉ l).
    { intros Hin. eapply reindex_frames_generator in H; [done|done|].
      apply lookup_insert_eq. }
    apply IH in H as (Hnd & Hin & Hout).
    + repeat split.
      * by constructor.
      * intros s df Hs Hsd. apply elem_of_cons in Hs as [->|Hs].
        -- rewrite Hout by done. rewrite lookup_insert_eq. congruence.
        -- apply Hin; [done|]. rewrite lookup_insert_ne; [done|].
           intros ->. done.
      * intros s Hs. apply not_elem_of_cons in Hs as [Hne Hl].
        rewrite Hout by done. by rewrite lookup_insert_ne.
    + intros s Hs. destruct (Hframes s ltac:(by right)) as [df Hdf].
      exists df. rewrite lookup_insert_ne; [done|]. intros ->. done.
Qed.

Lemma reindex_frames_ok l : forall comb sd,
  NoDup l ->
  (forall s, s ∈ l -> exists df, sd !! s = Some (Frame df)) ->
  exists sd', reindex_frames l comb sd = Ok sd'.
Proof.
  induction l as [|s0 l IH]; intros comb sd Hnd Hframes; [by eexists|].
  simpl. destruct (Hframes s0 ltac:(left)) as [df0 ->].
  apply NoDup_cons in Hnd as [Hnotin Hnd].
  apply IH; [done|]. intros s Hs.
  destruct (Hframes s ltac:(by right)) as [df Hdf].
  exists df. rewrite lookup_insert_ne; [done|]. intros ->. done.
Qed.

(** What a successful [_new_open_convert_csv_files] leaves behind: the
    symbols are distinct, the timeline is the label set of the first
    symbol's frame, every symbol's entry is the generator over its frame
    reindexed on that timeline, and every history is empty. *)
Lemma new_open_convert_csv_files_inv l sd lsd comb :
  _new_open_convert_csv_files fs dir l ∅ ∅ = Ok (sd, lsd, comb) ->
  NoDup l /\
  comb = match l with
         | [] => None
         | s :: _ => index <$> native fs dir s
         end /\
  (forall s, s ∈ l ->
     exists df, native fs dir s = Some df /\
                sd !! s = Some (RowIter (iterrows (reindex df comb))) /\
                lsd !! s = Some []) /\
  (forall s, s ∉ l -> sd !! s = None /\ lsd !! s = None).
Proof.
  unfold _new_open_convert_csv_files. intros H.
  destruct (load_csv_files fs dir l ∅ ∅ None) as [[[sd1 lsd1] comb1]|] eqn:Hload;
    [|discriminate].
  simpl in H.
  destruct (reindex_frames l comb1 sd1) as [sd2|] eqn:Hre; [|discriminate].
  simpl in H. inversion H; subst sd2 lsd1 comb1. clear H.
  apply load_csv_files_inv in Hload as (Hin & Hout & Hcomb).
  apply reindex_frames_inv in Hre as (Hnd & Hin2 & Hout2).
  - repeat split; try done.
    + intros s Hs. destruct (Hin s Hs) as (df & Hnat & Hsd & Hl).
      exists df. repeat split; try done. by apply Hin2.
    + rewrite Hout2 by done. by destruct (Hout s H) as [-> _].
    + by destruct (Hout s H) as [_ ->].
  - intros s Hs. destruct (Hin s Hs) as (df & _ & Hsd & _). eauto.
Qed.

(** Nothing but a missing file or a repeated symbol stops it. *)
Lemma new_open_convert_csv_files_ok l :
  NoDup l ->
  (forall s, s ∈ l -> is_Some (native fs dir s)) ->
  exists r, _new_open_convert_csv_files fs dir l ∅ ∅ = Ok r.
Proof.
  intros Hnd Hfiles. unfold _new_open_convert_csv_files.
  destruct (load_csv_files_ok l ∅ ∅ None Hfiles) as [[[sd1 lsd1] comb1] Hload].
  rewrite Hload. simpl.
  apply load_csv_files_inv in Hload as (Hin & _ & _).
  destruct (reindex_frames_ok l comb1 sd1 Hnd) as [sd2 ->].
  - intros s Hs. destruct (Hin s Hs) as (df & _ & Hsd & _). eauto.
  - by eexists.
Qed.

End Construction.

(** ** The timeline and the aligned series *)

Section Alignment.
Import HistoricCSVDataHandler Feed.

(** Every aligned series is as long as the timeline it was reindexed
    on, and carries the timeline's labels. *)
Lemma aligned_series_length fs dir l sd lsd timeline s :
  _new_open_convert_csv_files fs dir l ∅ ∅ = Ok (sd, lsd, Some timeline) ->
  s ∈ l ->
  exists rows, sd !! s = Some (RowIter rows) /\
               length rows = length timeline /\ rows.*1 = timeline.
Proof.
  intros H Hs. apply new_open_convert_csv_files_inv in H as (_ & _ & Hin & _).
  destruct (Hin s Hs) as (df & _ & Hsd & _).
  eexists. split; [done|]. split.
  - apply iterrows_reindex_length.
  - apply iterrows_reindex_labels.
Qed.

(** The timeline is the label set of the FIRST symbol's frame. *)
Lemma timeline_is_first_index fs dir s l sd lsd comb :
  _new_open_convert_csv_files fs dir (s :: l) ∅ ∅ = Ok (sd, lsd, comb) ->
  comb = index <$> native fs dir s.
Proof.
  intros H. by apply new_open_convert_csv_files_inv in H as (_ & -> & _).
Qed.

End Alignment.

(** Forward fill on the labels the code aligns on.  After construction,
    at every label [t] of [comb_index], the series a symbol's cursor
    serves holds the native row labelled [u], where [u] is the latest
    native label not after [t]; in particular the symbol's own row at [t]
    when it has one ([u = t]). *)
Lemma aligned_series_forward_fill
    (fs : FileSystem) (dir : string) (l : list string)
    (sd : gmap string HistoricCSVDataHandler.SymbolData)
    (lsd : gmap string (list Bar)) (timeline : list Z)
    (s : string) (df : DataFrame) (k j : nat) (t u : Z) (row : Row) :
  HistoricCSVDataHandler._new_open_convert_csv_files fs dir l ∅ ∅
    = Ok (sd, lsd, Some timeline) ->
  s ∈ l ->
  Feed.native fs dir s = Some df ->
  timeline !! k = Some t ->
  index df !! j = Some u ->
  values df !! j = Some row ->
  (u <= t)%Z ->
  (forall v, v ∈ index df -> (v <= t)%Z -> (v <= u)%Z) ->
  exists rows, sd !! s = Some (HistoricCSVDataHandler.RowIter rows) /\
               rows !! k = Some (t, row).
Proof.
  intros H Hs Hdf Hk Hj Hrow Hu Hmax.
  apply new_open_convert_csv_files_inv in H as (_ & _ & Hin & _).
  destruct (Hin s Hs) as (df' & Hdf' & Hsd & _).
  assert (df' = df) by congruence. subst df'.
  eexists. split; [done|].
  rewrite (iterrows_reindex_lookup _ _ _ _ Hk).
  erewrite pad_latest; eauto.
  unfold Feed.native in Hdf.
  destruct (read_csv fs (os_path_join dir (s +:+ ".csv"))) as [raw|e]; [|discriminate].
  simpl in Hdf. inversion Hdf. apply RangeIndex_sorted.
Qed.

(** C1 (the code at [symbol_list = ["AAPL"; "MSFT"]], one row against
    two): the timeline the handler aligns on is the first symbol's label
    set [[0]], not the sorted union [[0; 1]] of both label sets, and the
    second symbol's series is cut to that single label. *)
Theorem timeline_drops_later_symbols :
  exists sd lsd,
    HistoricCSVDataHandler._new_open_convert_csv_files
      Samples.disk "data" ["AAPL"; "MSFT"] ∅ ∅ = Ok (sd, lsd, Some [0%Z]) /\
    spec_unified_timeline Samples.disk "data" ["AAPL"; "MSFT"] = [0%Z; 1%Z] /\
    sd !! "MSFT"
    = Some (HistoricCSVDataHandler.RowIter [(0%Z, Samples.quote "2020-01-02" 20)]).
Proof.
  eexists _, _. split; [vm_compute; reflexivity|].
  split; vm_compute; reflexivity.
Qed.

(** C2 (the code at [symbol_list = ["AAPL"; "MSFT"]], one complete row
    against two): label [1] belongs to the unified timeline and MSFT has a
    native row at it, yet the series served for MSFT holds no row at label
    [1]; it stops at the first symbol's only label [0].  The forward-fill
    value of MSFT at that label of the timeline does not exist. *)
Theorem unified_timeline_label_is_not_served :
  exists sd lsd comb df rows,
    HistoricCSVDataHandler._new_open_convert_csv_files
      Samples.disk "data" ["AAPL"; "MSFT"] ∅ ∅ = Ok (sd, lsd, comb) /\
    1%Z ∈ spec_unified_timeline Samples.disk "data" ["AAPL"; "MSFT"] /\
    Feed.native Samples.disk "data" "MSFT" = Some df /\
    index df !! 1 = Some 1%Z /\
    values df !! 1 = Some (Samples.quote "2020-01-06" 22) /\
    sd !! "MSFT" = Some (HistoricCSVDataHandler.RowIter rows) /\
    rows.*1 = [0%Z] /\
    forall row, (1%Z, row) ∉ rows.
Proof.
  eexists _, _, _, _, _. split; [vm_compute; reflexivity|].
  split; [vm_compute; right; left|].
  split; [vm_compute; reflexivity|].
  split; [reflexivity|]. split; [reflexivity|].
  split; [vm_compute; reflexivity|].
  split; [reflexivity|].
  intros row H. apply list_elem_of_singleton in H. discriminate.
Qed.

(** ** One pass of [update_bars] *)

Lemma forallb_agree {A} (f g : A -> bool) (l : list A) :
  (forall x, x ∈ l -> f x = g x) -> forallb f l = forallb g l.
Proof.
  induction l as [|x l IH]; intros H; [done|]. simpl.
  rewrite (H x) by left. rewrite IH; [done|]. intros y Hy. apply H. by right.
Qed.

Section UpdateBars.
Import HistoricCSVDataHandler Feed.

Lemma update_symbol_frame s h :
  symbol_list (update_symbol s h).1 = symbol_list h /\
  events (update_symbol s h).1 = events h.
Proof.
  unfold update_symbol. destruct (new_bar h !! s) as [g|]; [|done].
  destruct (_get_new_bar s g (symbol_data h !! s)) as [[r g'] d'].
  destruct r as [bar|[]]; simpl; try done.
  by destruct (latest_symbol_data h !! s).
Qed.

Lemma update_symbol_view_eq s h :
  view (update_symbol s h).1 s = step_view s (view h s).
Proof.
  unfold update_symbol, view, step_view, Cursor.advance.
  destruct (new_bar h !! s) as [g|] eqn:Hg; [|simpl; by rewrite Hg].
  simpl. destruct (_get_new_bar s g (symbol_data h !! s)) as [[r g'] d'].
  destruct r as [bar|[]]; simpl;
    try (by rewrite lookup_insert_eq, lookup_partial_alter_eq;
            destruct (latest_symbol_data h !! s)).
  destruct (latest_symbol_data h !! s) as [bars_list|] eqn:Hl; simpl.
  - by rewrite !lookup_insert_eq, lookup_partial_alter_eq.
  - by rewrite lookup_insert_eq, lookup_partial_alter_eq, Hl.
Qed.

Lemma update_symbol_view_ne s s' h :
  s <> s' -> view (update_symbol s h).1 s' = view h s'.
Proof.
  intros Hne. unfold update_symbol, view.
  destruct (new_bar h !! s) as [g|]; [|done].
  destruct (_get_new_bar s g (symbol_data h !! s)) as [[r g'] d'].
  destruct r as [bar|[]]; simpl;
    try (by rewrite lookup_insert_ne, lookup_partial_alter_ne).
  destruct (latest_symbol_data h !! s) as [bars_list|]; simpl.
  - by rewrite !lookup_insert_ne, lookup_partial_alter_ne.
  - by rewrite lookup_insert_ne, lookup_partial_alter_ne.
Qed.

Lemma update_symbol_exn s h :
  (update_symbol s h).2 = step_exn s (view h s).
Proof.
  unfold update_symbol, view, step_exn, Cursor.advance.
  destruct (new_bar h !! s) as [g|]; [|done].
  simpl. destruct (_get_new_bar s g (symbol_data h !! s)) as [[r g'] d'].
  destruct r as [bar|[]]; simpl; try done.
  by destruct (latest_symbol_data h !! s).
Qed.

Lemma update_symbol_continue s h :
  continue_backtest (update_symbol s h).1
  = (continue_backtest h && negb (step_exhausted s (view h s)))%bool.
Proof.
  unfold update_symbol, view, step_exhausted, Cursor.advance.
  destruct (new_bar h !! s) as [g|]; [|simpl; by rewrite andb_true_r].
  simpl. destruct (_get_new_bar s g (symbol_data h !! s)) as [[r g'] d'].
  destruct r as [bar|[]]; simpl; rewrite ?andb_true_r, ?andb_false_r; try done.
  by destruct (latest_symbol_data h !! s).
Qed.

(** The loop over distinct symbols: untouched symbols keep their view,
    a listed symbol is stepped at most once, and exactly once when no
    exception escapes. *)
Lemma update_loop_spec l : forall h h' e,
  NoDup l ->
  update_loop l h = (h', e) ->
  symbol_list h' = symbol_list h /\
  events h' = events h /\
  (forall s, s ∉ l -> view h' s = view h s) /\
  (forall s, s ∈ l ->
     view h' s = view h s \/ view h' s = step_view s (view h s)) /\
  (e = None ->
     (forall s, s ∈ l ->
        view h' s = step_view s (view h s) /\ step_exn s (view h s) = None) /\
     continue_backtest h'
     = (continue_backtest h
        && forallb (fun s => negb (step_exhausted s (view h s))) l)%bool).
Proof.
  induction l as [|s0 l IH]; intros h h' e Hnd H.
  - simpl in H. inversion H; subst. split_and!; try done.
    + intros s Hs. by apply elem_of_nil in Hs.
    + intros _. split.
      * intros s Hs. by apply elem_of_nil in Hs.
      * simpl. by rewrite andb_true_r.
  - apply NoDup_cons in Hnd as [Hnotin Hnd]. simpl in H.
    pose proof (update_symbol_frame s0 h) as [Hsl Hev].
    pose proof (update_symbol_view_eq s0 h) as Heq.
    pose proof (update_symbol_exn s0 h) as Hexn.
    pose proof (update_symbol_continue s0 h) as Hcont.
    assert (Hother : forall s, s <> s0 ->
              view (update_symbol s0 h).1 s = view h s).
    { intros s Hne. by apply update_symbol_view_ne. }
    destruct (update_symbol s0 h) as [h1 [e1|]] eqn:Hstep; cbn [fst snd] in *.
    + inversion H; subst h' e. split_and!; try done.
      * intros s Hs. apply not_elem_of_cons in Hs as [Hne _]. by apply Hother.
      * intros s Hs. destruct (decide (s = s0)) as [->|Hne]; [by right|].
        left. by apply Hother.
    + apply IH in H as (Hsl' & Hev' & Hout & Hin & Hnone); [|done].
      split_and!.
      * congruence.
      * congruence.
      * intros s Hs. apply not_elem_of_cons in Hs as [Hne Hl].
        rewrite Hout by done. by apply Hother.
      * intros s Hs. destruct (decide (s = s0)) as [->|Hne].
        -- right. rewrite Hout by done. done.
        -- apply elem_of_cons in Hs as [?|Hs]; [done|].
           rewrite <- (Hother s Hne). by apply Hin.
      * intros He. destruct (Hnone He) as [Hall Hc]. split.
        -- intros s Hs. destruct (decide (s = s0)) as [->|Hne].
           ++ rewrite Hout by done. done.
           ++ apply elem_of_cons in Hs as [?|Hs]; [done|].
              rewrite <- (Hother s Hne). by apply Hall.
        -- rewrite Hc, Hcont. cbn [forallb].
           rewrite <- andb_assoc. f_equal. f_equal.
           apply forallb_agree. intros s Hs. cbv beta.
           rewrite Hother; [done|]. by intros ->.
Qed.

End UpdateBars.

(** ** Invariants of the historic handler *)

Section Invariants.
Import HistoricCSVDataHandler Feed.

Lemma generators_lookup l : forall (m : gmap string GenState) s,
  foldl (fun m s => <[s := GEN_CREATED]> m) m l !! s
  = if decide (s ∈ l) then Some GEN_CREATED else m !! s.
Proof.
  induction l as [|s0 l IH]; intros m s; simpl.
  - destruct (decide (s ∈ [])) as [H|]; [by apply elem_of_nil in H|done].
  - rewrite IH.
    destruct (decide (s ∈ l)) as [Hl|Hl], (decide (s ∈ s0 :: l)) as [Hc|Hc];
      try done.
    + exfalso. apply Hc. by right.
    + apply elem_of_cons in Hc as [->|?]; [|done]. by rewrite lookup_insert_eq.
    + apply not_elem_of_cons in Hc as [? _]. by rewrite lookup_insert_ne.
Qed.

(** What [__init__] returns. *)
Lemma init_inv fs events dir l h :
  __init__ fs events dir l = Ok h ->
  exists sd lsd comb,
    _new_open_convert_csv_files fs dir l ∅ ∅ = Ok (sd, lsd, comb) /\
    h = {| HistoricCSVDataHandler.events := events;
           csv_dir := dir;
           symbol_list := l;
           symbol_data := sd;
           latest_symbol_data := lsd;
           continue_backtest := true;
           new_bar := foldl (fun m s => <[s := GEN_CREATED]> m) ∅ l |}.
Proof.
  unfold __init__. intros H.
  destruct (_new_open_convert_csv_files fs dir l ∅ ∅) as [[[sd lsd] comb]|];
    [|discriminate].
  simpl in H. inversion H. eauto.
Qed.

Lemma init_wf fs events dir l h :
  __init__ fs events dir l = Ok h -> wf h.
Proof.
  intros H. apply init_inv in H as (sd & lsd & comb & H & ->).
  apply new_open_convert_csv_files_inv in H as (Hnd & _ & Hin & Hout).
  split; simpl.
  - done.
  - intros s Hs. rewrite generators_lookup. by case_decide.
  - intros s Hs. destruct (Hin s Hs) as (df & _ & Hsd & _). eauto.
  - intros s. split.
    + intros Hsome. destruct (decide (s ∈ l)) as [|Hn]; [done|].
      destruct (Hout s Hn) as [_ Hnone]. rewrite Hnone in Hsome.
      by destruct Hsome.
    + intros Hs. destruct (Hin s Hs) as (df & _ & _ & ->). eauto.
Qed.

Lemma advance_data s g d :
  (Cursor.advance s (g, d)).2.2 = d \/
  exists b rest, d = Some (RowIter (b :: rest)) /\
                 (Cursor.advance s (g, d)).2.2 = Some (RowIter rest).
Proof.
  unfold Cursor.advance, _get_new_bar. simpl.
  destruct g; try (by left);
    (destruct d as [[df|[|b rest]]|]; try (by left);
     right; exists b, rest; by destruct (row_fields b.2)).
Qed.

(** A pass keeps the generator, keeps a row generator a row generator
    and only ever appends to the history. *)
Lemma step_view_gen s v : is_Some v.1.1 -> is_Some (step_view s v).1.1.
Proof.
  destruct v as [[[g|] d] l]; simpl; [|done]. intros _.
  destruct (Cursor.advance s (g, d)) as [r c']. simpl. eauto.
Qed.

Lemma step_view_data s v rows :
  v.1.2 = Some (RowIter rows) ->
  exists rows', (step_view s v).1.2 = Some (RowIter rows') /\ rows' `suffix_of` rows.
Proof.
  destruct v as [[[g|] d] l]; simpl; intros ->.
  - pose proof (advance_data s g (Some (RowIter rows))) as Hd.
    destruct (Cursor.advance s (g, Some (RowIter rows))) as [r c']. simpl in *.
    destruct Hd as [->|(b & rest & Heq & ->)]; [by eexists|].
    inversion Heq; subst. eexists. split; [done|]. by apply suffix_cons_r.
  - by eexists.
Qed.

Lemma step_view_hist s v :
  (step_view s v).2 = v.2 \/
  exists bars_list g bar,
    v.2 = Some bars_list /\ v.1.1 = Some g /\
    (Cursor.advance s (g, v.1.2)).1 = Ok bar /\
    (step_view s v).2 = Some (bars_list ++ [bar]).
Proof.
  destruct v as [[[g|] d] l]; simpl; [|by left].
  destruct (Cursor.advance s (g, d)) as [[bar|e] c'] eqn:Hadv; simpl; [|by left].
  destruct l as [bars_list|]; [|by left].
  right. exists bars_list, g, bar. by rewrite Hadv.
Qed.

(** [update_bars] as a whole. *)
Lemma update_bars_spec h h' e :
  NoDup (symbol_list h) ->
  update_bars h = (h', e) ->
  symbol_list h' = symbol_list h /\
  (forall s, s ∉ symbol_list h -> view h' s = view h s) /\
  (forall s, s ∈ symbol_list h ->
     view h' s = view h s \/ view h' s = step_view s (view h s)) /\
  (e = None ->
     events h' = events h ++ [MarketEvent] /\
     (forall s, s ∈ symbol_list h ->
        view h' s = step_view s (view h s) /\ step_exn s (view h s) = None) /\
     continue_backtest h'
     = (continue_backtest h
        && forallb (fun s => negb (step_exhausted s (view h s))) (symbol_list h))%bool) /\
  (e <> None -> events h' = events h).
Proof.
  intros Hnd H. unfold update_bars in H.
  destruct (update_loop (symbol_list h) h) as [h1 [e1|]] eqn:Hloop;
    inversion H; subst; clear H;
    apply update_loop_spec in Hloop as (Hsl & Hev & Hout & Hin & Hnone); try done.
  split_and!; [done|done|done| |done].
  intros _. destruct (Hnone eq_refl) as [Hall Hc].
  split_and!; simpl; [by rewrite Hev|done|done].
Qed.

Lemma update_bars_wf h : wf h -> wf (update_bars h).1.
Proof.
  intros [Hnd Hgen Hdata Hhist].
  destruct (update_bars h) as [h' e] eqn:H. simpl.
  apply update_bars_spec in H as (Hsl & Hout & Hin & _); [|done].
  assert (Hview : forall s, s ∈ symbol_list h ->
            is_Some (new_bar h' !! s) /\
            (exists rows, symbol_data h' !! s = Some (RowIter rows)) /\
            is_Some (latest_symbol_data h' !! s)).
  { intros s Hs. specialize (Hgen s Hs). destruct (Hdata s Hs) as [rows Hrows].
    apply Hhist in Hs as Hl.
    destruct (Hin s Hs) as [Hv|Hv].
    - unfold view in Hv. injection Hv as Hv1 Hv2 Hv3.
      rewrite Hv1, Hv2, Hv3. eauto.
    - pose proof (step_view_gen s (view h s) Hgen) as H1.
      destruct (step_view_data s (view h s) rows Hrows) as (rows' & H2 & _).
      pose proof (step_view_hist s (view h s)) as H3.
      rewrite <- Hv in H1, H2, H3. simpl in *. split_and!; [done|by eauto|].
      destruct H3 as [->|(bl & g & bar & _ & _ & _ & ->)]; [done|by eauto]. }
  split; rewrite ?Hsl.
  - done.
  - intros s Hs. by apply Hview.
  - intros s Hs. by apply Hview.
  - intros s. split.
    + intros Hsome. destruct (decide (s ∈ symbol_list h)) as [|Hn]; [done|].
      specialize (Hout s Hn). unfold view in Hout. injection Hout as _ _ Hl.
      rewrite Hl in Hsome. by apply Hhist.
    + intros Hs. by apply Hview.
Qed.

Lemma reachable_wf fs h : reachable fs h -> wf h.
Proof.
  induction 1 as [events dir l h H|h _ IH].
  - by eapply init_wf.
  - by apply update_bars_wf.
Qed.

End Invariants.

(** ** Histories *)

Section Histories.
Import HistoricCSVDataHandler Feed.

Lemma update_bars_n_succ n : forall h,
  update_bars_n (S n) h = (update_bars (update_bars_n n h)).1.
Proof.
  induction n as [|n IH]; intros h; [done|].
  change (update_bars_n (S (S n)) h) with (update_bars_n (S n) (update_bars h).1).
  by rewrite IH.
Qed.

Lemma reachable_update_bars_n fs n : forall h,
  reachable fs h -> reachable fs (update_bars_n n h).
Proof.
  induction n as [|n IH]; intros h Hr; [done|].
  simpl. apply IH. by constructor.
Qed.

Lemma update_bars_symbol_list h :
  wf h -> symbol_list (update_bars h).1 = symbol_list h.
Proof.
  intros Hwf. destruct (update_bars h) as [h' e] eqn:H.
  by apply update_bars_spec in H as (Hsl & _); [|apply Hwf].
Qed.

Lemma update_bars_n_symbol_list n : forall h,
  wf h -> symbol_list (update_bars_n n h) = symbol_list h.
Proof.
  induction n as [|n IH]; intros h Hwf; [done|].
  simpl. rewrite IH by by apply update_bars_wf.
  by apply update_bars_symbol_list.
Qed.

(** One call appends at most one bar to a history and changes nothing
    else in it. *)
Lemma update_bars_history h s :
  wf h ->
  exists ext, History (update_bars h).1 s = History h s ++ ext /\ length ext <= 1.
Proof.
  intros Hwf. destruct (update_bars h) as [h' e] eqn:H. simpl.
  apply update_bars_spec in H as (_ & Hout & Hin & _); [|apply Hwf].
  assert (Hsame : view h' s = view h s -> History h' s = History h s).
  { unfold view, History. intros Hv. injection Hv as _ _ ->. done. }
  destruct (decide (s ∈ symbol_list h)) as [Hs|Hs].
  - destruct (Hin s Hs) as [Hv|Hv].
    + exists []. rewrite app_nil_r. split; [by apply Hsame|simpl; lia].
    + destruct (step_view_hist s (view h s)) as [Heq|(bl & g & bar & Hl & _ & _ & Heq)];
        rewrite <- Hv in Heq; unfold History; simpl in *.
      * exists []. rewrite app_nil_r, Heq. split; [done|simpl; lia].
      * exists [bar]. rewrite Heq, Hl. split; [done|simpl; lia].
  - exists []. rewrite app_nil_r. split; [by apply Hsame, Hout|simpl; lia].
Qed.

(** Histories only grow at their end. *)
Lemma history_prefix fs h s n m :
  reachable fs h ->
  History (update_bars_n n h) s `prefix_of` History (update_bars_n (n + m) h) s.
Proof.
  intros Hr. induction m as [|m IH].
  - by rewrite Nat.add_0_r.
  - rewrite Nat.add_succ_r, update_bars_n_succ.
    destruct (update_bars_history (update_bars_n (n + m) h) s) as (ext & -> & _).
    + eapply reachable_wf. by apply reachable_update_bars_n.
    + by apply prefix_app_r.
Qed.

Lemma simple_update_bars_n_succ n : forall g,
  SimpleFeed.update_bars_n (S n) g
  = (SimpleCSVHandler.update_bars (SimpleFeed.update_bars_n n g)).1.
Proof.
  induction n as [|n IH]; intros g; [done|].
  change (SimpleFeed.update_bars_n (S (S n)) g)
    with (SimpleFeed.update_bars_n (S n) (SimpleCSVHandler.update_bars g).1).
  by rewrite IH.
Qed.

Lemma simple_update_bars_history g :
  exists ext,
    SimpleCSVHandler.latest_symbol_data (SimpleCSVHandler.update_bars g).1
    = SimpleCSVHandler.latest_symbol_data g ++ ext /\ length ext <= 1.
Proof.
  unfold SimpleCSVHandler.update_bars.
  destruct (SimpleCSVHandler._get_new_bar _ _) as [[bar|[]] g']; simpl;
    first [ by exists [bar]; split; [done|simpl; lia]
          | by exists []; rewrite app_nil_r; split; [done|simpl; lia] ].
Qed.

End Histories.

(** C6: between the n-th and the (n+1)-th call of [update_bars] every
    instrument's history is extended at its end by at most one bar and is
    otherwise unchanged, so its length never decreases and grows by at
    most one per call; [get_latest_bars] returns a value and leaves the
    handler as it is.  Both handlers. *)
Theorem history_grows_by_at_most_one
    (fs : FileSystem) (h : HistoricCSVDataHandler.t) (g : SimpleCSVHandler.t)
    (s : string) (n : nat) :
  (Feed.reachable fs h ->
   exists ext,
     Feed.History (Feed.update_bars_n (S n) h) s
     = Feed.History (Feed.update_bars_n n h) s ++ ext /\
     length ext <= 1) /\
  (exists ext,
     SimpleCSVHandler.latest_symbol_data (SimpleFeed.update_bars_n (S n) g)
     = SimpleCSVHandler.latest_symbol_data (SimpleFeed.update_bars_n n g) ++ ext /\
     length ext <= 1).
Proof.
  split.
  - intros Hr. rewrite update_bars_n_succ. apply update_bars_history.
    eapply reachable_wf. by apply reachable_update_bars_n.
  - rewrite simple_update_bars_n_succ. apply simple_update_bars_history.
Qed.

(** C7: a query for a symbol that was not in the list given to
    [__init__] returns, at any later point, no bars ([None]) and prints
    the "not available" line; it raises nothing. *)
Theorem unknown_symbol_is_reported
    (fs : FileSystem) (events : list Event) (dir : string) (l : list string)
    (h0 : HistoricCSVDataHandler.t) (s : string) (n : nat) (N : Z) :
  HistoricCSVDataHandler.__init__ fs events dir l = Ok h0 ->
  s ∉ l ->
  HistoricCSVDataHandler.get_latest_bars (Feed.update_bars_n n h0) s N
  = (None, ["That symbol is not available in the historical data set."]).
Proof.
  intros Hinit Hs.
  assert (Hr : Feed.reachable fs h0) by by econstructor.
  assert (Hwf0 : Feed.wf h0) by by eapply reachable_wf.
  assert (Hwf : Feed.wf (Feed.update_bars_n n h0)).
  { eapply reachable_wf. by apply reachable_update_bars_n. }
  assert (Hl : HistoricCSVDataHandler.symbol_list (Feed.update_bars_n n h0) = l).
  { rewrite update_bars_n_symbol_list by done.
    apply init_inv in Hinit as (sd & lsd & comb & _ & ->). done. }
  unfold HistoricCSVDataHandler.get_latest_bars.
  destruct (HistoricCSVDataHandler.latest_symbol_data (Feed.update_bars_n n h0) !! s)
    as [bars|] eqn:Hb; [|done].
  exfalso. apply Hs. rewrite <- Hl. apply Hwf. by eauto.
Qed.

(** C10: with [N = 0] both handlers return the whole history of the
    queried instrument, oldest first, since [bars_list[-0:]] is the whole
    list. *)
Theorem get_latest_bars_zero_returns_all
    (h : HistoricCSVDataHandler.t) (s : string) (bars_list : list Bar)
    (g : SimpleCSVHandler.t) (symbol : option string) :
  HistoricCSVDataHandler.latest_symbol_data h !! s = Some bars_list ->
  HistoricCSVDataHandler.get_latest_bars h s 0 = (Some bars_list, []) /\
  SimpleCSVHandler.get_latest_bars g symbol 0 = SimpleCSVHandler.latest_symbol_data g.
Proof.
  intros H. unfold HistoricCSVDataHandler.get_latest_bars,
    SimpleCSVHandler.get_latest_bars. rewrite H.
  by rewrite !slice_from_neg_zero.
Qed.

(** X15: for a count of at least one, [get_latest_bars] returns the last
    [min N (len history)] bars of the history, in their order, in both
    handlers. *)
Lemma get_latest_bars_positive
    (h : HistoricCSVDataHandler.t) (s : string) (bars_list : list Bar)
    (g : SimpleCSVHandler.t) (symbol : option string) (N : Z) :
  (1 <= N)%Z ->
  HistoricCSVDataHandler.latest_symbol_data h !! s = Some bars_list ->
  (HistoricCSVDataHandler.get_latest_bars h s N
   = (Some (drop (length bars_list - Z.to_nat N) bars_list), []) /\
   length (drop (length bars_list - Z.to_nat N) bars_list)
   = Nat.min (Z.to_nat N) (length bars_list)) /\
  (SimpleCSVHandler.get_latest_bars g symbol N
   = drop (length (SimpleCSVHandler.latest_symbol_data g) - Z.to_nat N)
          (SimpleCSVHandler.latest_symbol_data g) /\
   length (SimpleCSVHandler.get_latest_bars g symbol N)
   = Nat.min (Z.to_nat N) (length (SimpleCSVHandler.latest_symbol_data g))).
Proof.
  intros HN H. unfold HistoricCSVDataHandler.get_latest_bars,
    SimpleCSVHandler.get_latest_bars. rewrite H.
  rewrite !slice_from_last by done. rewrite !length_drop.
  split_and!; try done; lia.
Qed.

(** ** Tables with the seven columns *)

Section SevenColumns.
Import HistoricCSVDataHandler Feed.

Lemma pad_elem idx : forall rows t last r,
  pad idx rows t last = Some r -> r ∈ rows \/ last = Some r.
Proof.
  induction idx as [|i idx IH]; intros rows t last r H; [by right|].
  destruct rows as [|r0 rows]; [by right|]. simpl in H.
  destruct (i <=? t)%Z; [|by right].
  apply IH in H as [H|H].
  - left. by right.
  - left. inversion H. by left.
Qed.

Lemma dropna_values raw r :
  r ∈ values (dropna raw) -> r ∈ values raw.
Proof.
  unfold dropna. simpl. intros H.
  apply list_elem_of_fmap in H as ([t r'] & -> & H).
  apply list_elem_of_filter in H as [_ H]. unfold iterrows in H.
  by apply elem_of_zip_r in H.
Qed.

Lemma native_seven_columns fs dir s df :
  all_seven_columns fs -> native fs dir s = Some df -> seven_columns df.
Proof.
  unfold native. intros Hfs H.
  destruct (read_csv fs (os_path_join dir (s +:+ ".csv"))) as [raw|e] eqn:Hraw; [|discriminate].
  inversion H; subst. apply read_csv_ok in Hraw. destruct (Hfs _ _ Hraw) as [H7 Hrect].
  split; [done|]. simpl. rewrite Forall_forall in Hrect.
  apply Forall_forall. intros r Hr. by apply Hrect, dropna_values.
Qed.

Lemma reindex_rows_seven df comb :
  seven_columns df ->
  Forall (fun b : Z * Row => 7 <= length b.2) (iterrows (reindex df comb)).
Proof.
  intros [H7 Hrect]. rewrite Forall_forall in Hrect.
  apply Forall_forall. intros [t r] Hb.
  unfold iterrows in Hb. apply elem_of_zip_r in Hb. simpl.
  destruct comb as [tl|]; simpl in Hb.
  - apply list_elem_of_fmap in Hb as (t' & -> & _).
    destruct (pad (index df) (values df) t' None) as [r|] eqn:Hpad; simpl.
    + apply pad_elem in Hpad as [Hr|?]; [|done]. by rewrite (Hrect r Hr).
    + by rewrite length_replicate.
  - by rewrite (Hrect r Hb).
Qed.

Lemma init_rows_ok fs events dir l h :
  all_seven_columns fs -> __init__ fs events dir l = Ok h -> rows_ok h.
Proof.
  intros Hfs H. apply init_inv in H as (sd & lsd & comb & H & ->).
  apply new_open_convert_csv_files_inv in H as (_ & _ & Hin & Hout).
  intros s rows Hrows. simpl in Hrows.
  destruct (decide (s ∈ l)) as [Hs|Hs].
  - destruct (Hin s Hs) as (df & Hnat & Hsd & _).
    rewrite Hsd in Hrows. inversion Hrows; subst.
    eapply reindex_rows_seven, native_seven_columns; eauto.
  - destruct (Hout s Hs) as [Hnone _]. congruence.
Qed.

Lemma update_bars_rows_ok h : wf h -> rows_ok h -> rows_ok (update_bars h).1.
Proof.
  intros Hwf Hok. destruct (update_bars h) as [h' e] eqn:H. simpl.
  apply update_bars_spec in H as (_ & Hout & Hin & _); [|apply Hwf].
  intros s rows Hrows.
  assert (Hsame : view h' s = view h s ->
            Forall (fun b : Z * Row => 7 <= length b.2) rows).
  { unfold view. intros Hv. injection Hv as _ Hd _. rewrite Hd in Hrows.
    by eapply Hok. }
  destruct (decide (s ∈ symbol_list h)) as [Hs|Hs]; [|by apply Hsame, Hout].
  destruct (Hin s Hs) as [Hv|Hv]; [by apply Hsame|].
  destruct (wf_data h Hwf s Hs) as [rows0 Hrows0].
  destruct (step_view_data s (view h s) rows0 Hrows0) as (rows' & Heq & Hsuf).
  rewrite <- Hv in Heq. simpl in Heq. rewrite Hrows in Heq. inversion Heq; subst.
  destruct Hsuf as [pre ->]. specialize (Hok s _ Hrows0).
  by apply Forall_app in Hok as [_ ?].
Qed.

Lemma reachable_rows_ok fs h :
  all_seven_columns fs -> reachable fs h -> rows_ok h.
Proof.
  intros Hfs. induction 1 as [events dir l h H|h Hr IH].
  - by eapply init_rows_ok.
  - apply update_bars_rows_ok; [by eapply reachable_wf|done].
Qed.

(** With seven fields in every row, advancing yields a bar or signals
    exhaustion, and the loop body lets no exception out. *)
Lemma step_exn_none h s :
  wf h -> rows_ok h -> s ∈ symbol_list h -> step_exn s (view h s) = None.
Proof.
  intros Hwf Hok Hs.
  destruct (wf_gen h Hwf s Hs) as [g Hg].
  destruct (wf_data h Hwf s Hs) as [rows Hrows].
  destruct (proj2 (wf_hist h Hwf s) Hs) as [bl Hbl].
  specialize (Hok s rows Hrows).
  unfold step_exn, view, Cursor.advance, _get_new_bar. rewrite Hg, Hrows, Hbl.
  simpl. destruct g; try done;
    (destruct rows as [|b rest]; [done|];
     apply Forall_cons in Hok as [Hb _];
     by destruct (row_fields_ok _ Hb) as [cs ->]).
Qed.

Lemma update_loop_no_exn l : forall h,
  NoDup l ->
  (forall s, s ∈ l -> step_exn s (view h s) = None) ->
  (update_loop l h).2 = None.
Proof.
  induction l as [|s0 l IH]; intros h Hnd Hall; [done|].
  apply NoDup_cons in Hnd as [Hnotin Hnd]. simpl.
  pose proof (update_symbol_exn s0 h) as Hexn.
  rewrite (Hall s0) in Hexn by left.
  destruct (update_symbol s0 h) as [h1 e1] eqn:Hstep. simpl in Hexn. subst e1.
  apply IH; [done|]. intros s Hs.
  assert (s0 <> s) as Hne by (by intros ->).
  pose proof (update_symbol_view_ne s0 s h Hne) as Hv.
  rewrite Hstep in Hv. simpl in Hv. rewrite Hv. apply Hall. by right.
Qed.

Lemma update_bars_no_exn h :
  wf h -> rows_ok h -> (update_bars h).2 = None.
Proof.
  intros Hwf Hok. unfold update_bars.
  pose proof (update_loop_no_exn (symbol_list h) h (wf_nodup h Hwf)) as H.
  destruct (update_loop (symbol_list h) h) as [h' [e|]]; [|done].
  simpl in H. apply H. intros s Hs. by apply step_exn_none.
Qed.

End SevenColumns.

(** ** One call of [update_bars] *)

Section SimpleInvariants.
Import SimpleCSVHandler SimpleFeed.

Lemma simple_update_bars_bars h : bars (update_bars h).1 = bars h.
Proof.
  unfold update_bars. destruct (_get_new_bar _ _) as [[bar|[]] g']; done.
Qed.

Lemma simple_update_bars_new_bar h :
  new_bar (update_bars h).1 = (Cursor.simple_advance (bars h) (new_bar h)).2.
Proof.
  unfold update_bars, Cursor.simple_advance.
  destruct (_get_new_bar _ _) as [[bar|[]] g']; done.
Qed.

Lemma simple_init_rows_ok fs events csv h :
  Feed.all_seven_columns fs -> __init__ fs events csv = Ok h -> rows_ok h.
Proof.
  unfold __init__. intros Hfs H.
  destruct (read_csv fs csv) as [raw|e] eqn:Hraw; [|discriminate].
  inversion H; subst. intros rows Hrows. simpl in Hrows. inversion Hrows; subst.
  apply (reindex_rows_seven _ None).
  apply read_csv_ok in Hraw. destruct (Hfs _ _ Hraw) as [H7 Hrect]. split; [done|]. simpl.
  rewrite Forall_forall in Hrect. apply Forall_forall.
  intros r Hr. by apply Hrect, dropna_values.
Qed.

Lemma simple_update_bars_rows_ok h : rows_ok h -> rows_ok (update_bars h).1.
Proof.
  unfold rows_ok. intros Hok rows.
  rewrite simple_update_bars_bars, simple_update_bars_new_bar.
  unfold Cursor.simple_advance, _get_new_bar.
  destruct (gen_rows (bars h) (new_bar h)) as [[|b rest]|]; try done.
  specialize (Hok _ eq_refl). apply Forall_cons in Hok as [Hb Hrest].
  destruct (row_fields b.2); simpl; [|done]. by intros [= <-].
Qed.

Lemma simple_reachable_rows_ok fs h :
  Feed.all_seven_columns fs -> reachable fs h -> rows_ok h.
Proof.
  intros Hfs. induction 1 as [events csv h H|h Hr IH].
  - by eapply simple_init_rows_ok.
  - by apply simple_update_bars_rows_ok.
Qed.

End SimpleInvariants.

Lemma forallb_false_elem {A} (f : A -> bool) (l : list A) x :
  x ∈ l -> f x = false -> forallb f l = false.
Proof.
  induction 1 as [x l|x y l _ IH]; intros Hf; simpl.
  - by rewrite Hf.
  - rewrite IH by done. apply andb_false_r.
Qed.

(** C3, for files that all have at least seven columns: a call of
    [update_bars] returns normally, advances the cursor of every listed
    symbol exactly once, appends the bar a cursor yields to that symbol's
    history, leaves the history alone and clears [continue_backtest]
    when the cursor is exhausted, and appends exactly one [MarketEvent]
    to the event sink.  The single-series handler does the same with its
    one cursor. *)
Theorem update_bars_advances_each_cursor_once
    (fs : FileSystem) (h : HistoricCSVDataHandler.t) (g : SimpleCSVHandler.t) :
  Feed.all_seven_columns fs ->
  (Feed.reachable fs h ->
   exists h',
     HistoricCSVDataHandler.update_bars h = (h', None) /\
     HistoricCSVDataHandler.events h'
     = HistoricCSVDataHandler.events h ++ [MarketEvent] /\
     forall s, s ∈ HistoricCSVDataHandler.symbol_list h ->
       exists c,
         Feed.cursor_of h s = Some c /\
         Feed.cursor_of h' s = Some (Cursor.advance s c).2 /\
         match (Cursor.advance s c).1 with
         | Ok bar => Feed.History h' s = Feed.History h s ++ [bar]
         | Raise StopIteration =>
             HistoricCSVDataHandler.continue_backtest h' = false /\
             Feed.History h' s = Feed.History h s
         | Raise _ => False
         end) /\
  (SimpleFeed.reachable fs g ->
   exists g',
     SimpleCSVHandler.update_bars g = (g', None) /\
     SimpleCSVHandler.events g' = SimpleCSVHandler.events g ++ [MarketEvent] /\
     SimpleCSVHandler.new_bar g'
     = (Cursor.simple_advance (SimpleCSVHandler.bars g) (SimpleCSVHandler.new_bar g)).2 /\
     match (Cursor.simple_advance (SimpleCSVHandler.bars g)
                                  (SimpleCSVHandler.new_bar g)).1 with
     | Ok bar =>
         SimpleCSVHandler.latest_symbol_data g'
         = SimpleCSVHandler.latest_symbol_data g ++ [bar]
     | Raise StopIteration =>
         SimpleCSVHandler.continue_backtest g' = false /\
         SimpleCSVHandler.latest_symbol_data g' = SimpleCSVHandler.latest_symbol_data g
     | Raise _ => False
     end).
Proof.
  intros Hfs. split.
  - intros Hr.
    pose proof (reachable_wf _ _ Hr) as Hwf.
    pose proof (reachable_rows_ok _ _ Hfs Hr) as Hok.
    pose proof (update_bars_no_exn h Hwf Hok) as Hnone.
    destruct (HistoricCSVDataHandler.update_bars h) as [h' e] eqn:H.
    simpl in Hnone. subst e. exists h'. split; [done|].
    apply update_bars_spec in H as (_ & _ & _ & Hall & _); [|apply Hwf].
    destruct (Hall eq_refl) as (Hev & Hstep & Hcont). split; [done|].
    intros s Hs. destruct (Hstep s Hs) as [Hv Hexn].
    destruct (Feed.wf_gen h Hwf s Hs) as [gs Hg].
    destruct (proj2 (Feed.wf_hist h Hwf s) Hs) as [bl Hbl].
    exists (gs, HistoricCSVDataHandler.symbol_data h !! s).
    unfold Feed.cursor_of, Feed.History. rewrite Hg. split; [done|].
    assert (Hex : Feed.step_exhausted s (Feed.view h s) = true ->
              HistoricCSVDataHandler.continue_backtest h' = false).
    { intros Hx. rewrite Hcont. rewrite (forallb_false_elem _ _ s Hs).
      - apply andb_false_r.
      - by rewrite Hx. }
    unfold Feed.view, Feed.step_view, Feed.step_exn, Feed.step_exhausted in *.
    rewrite Hg, Hbl in *.
    destruct (Cursor.advance s (gs, HistoricCSVDataHandler.symbol_data h !! s))
      as [r c'] eqn:Hadv.
    simpl in *. injection Hv as -> -> ->. simpl. split.
    + by destruct c'.
    + destruct r as [bar|[]]; try done. split; [by apply Hex|done].
  - intros Hr. pose proof (simple_reachable_rows_ok _ _ Hfs Hr) as Hok.
    pose proof (simple_update_bars_new_bar g) as Hnb.
    unfold SimpleFeed.rows_ok in Hok.
    unfold SimpleCSVHandler.update_bars, Cursor.simple_advance,
      SimpleCSVHandler._get_new_bar in *.
    destruct (SimpleCSVHandler.gen_rows _ _) as [[|b rest]|]; simpl in *;
      try (eexists; split_and!; done).
    specialize (Hok _ eq_refl). apply Forall_cons in Hok as [Hb _].
    destruct (row_fields_ok _ Hb) as [cs Hcs]. rewrite Hcs in *. simpl in *.
    eexists; split_and!; done.
Qed.

(** ** Bars *)

(** C9, as the code has it: a bar yielded by a cursor of the historic
    handler is the symbol followed by the first seven fields of the row;
    a bar yielded by the single-series handler is those seven fields
    alone, with no identifier. *)
Theorem bars_carry_the_symbol_in_historic_only
    (symbol : string) (c c' : Cursor.t) (bar : Bar)
    (bars : DataFrame) (g g' : SimpleCSVHandler.Gen) (bar' : Bar) :
  (Cursor.advance symbol c = (Ok bar, c') ->
   exists b rest,
     c.2 = Some (HistoricCSVDataHandler.RowIter (b :: rest)) /\
     7 <= length b.2 /\
     Cursor.tagged symbol (take 7 b.2) bar /\ length bar = 8) /\
  (Cursor.simple_advance bars g = (Ok bar', g') ->
   exists b rest,
     SimpleCSVHandler.gen_rows bars g = Some (b :: rest) /\
     7 <= length b.2 /\
     bar' = take 7 b.2 /\ length bar' = 7).
Proof.
  split.
  - destruct c as [gs d]. unfold Cursor.advance, HistoricCSVDataHandler._get_new_bar.
    simpl. intros H.
    destruct gs; try (by inversion H);
      (destruct d as [[df|[|b rest]]|]; [destruct (columns df)| | |]; try (by inversion H);
       destruct (row_fields b.2) as [cs|] eqn:Hcs; [|by inversion H];
       inversion H; subst; exists b, rest;
       pose proof (row_fields_length _ _ Hcs) as Hlen;
       pose proof (row_fields_take _ _ Hcs) as Htake;
       assert (7 <= length b.2)
         by (destruct (le_lt_dec 7 (length b.2)) as [|Hlt]; [done|];
             apply row_fields_short in Hlt; congruence);
       unfold Cursor.tagged; split_and!; [done|done|by rewrite <- Htake|simpl; lia]).
  - unfold Cursor.simple_advance, SimpleCSVHandler._get_new_bar. intros H.
    destruct (SimpleCSVHandler.gen_rows bars g) as [[|b rest]|]; try (by inversion H).
    destruct (row_fields b.2) as [cs|] eqn:Hcs; [|by inversion H].
    inversion H; subst. exists b, rest.
    pose proof (row_fields_length _ _ Hcs) as Hlen.
    pose proof (row_fields_take _ _ Hcs) as Htake.
    assert (7 <= length b.2).
    { destruct (le_lt_dec 7 (length b.2)) as [|Hlt]; [done|].
      apply row_fields_short in Hlt. congruence. }
    split_and!; done.
Qed.

(** The single-series handler yields a bar that is not an identifier
    followed by the seven fields. *)
Lemma simple_bar_carries_no_symbol :
  exists bar g',
    Cursor.simple_advance (reset_index (dropna Samples.short_table))
                          SimpleCSVHandler.Created = (Ok bar, g') /\
    ~ exists symbol fields, length fields = 7 /\ Cursor.tagged symbol fields bar.
Proof.
  eexists _, _. split; [vm_compute; reflexivity|].
  intros (symbol & fields & Hlen & Htag). unfold Cursor.tagged in Htag.
  apply (f_equal length) in Htag. simpl in Htag. lia.
Qed.

(** ** Files without the required columns *)

(** C8, as the code has it: [__init__] never looks at the columns of a
    table [pd.read_csv] has parsed.  Whatever columns the tables have, the
    historic handler is built when the symbols are distinct and every
    symbol's file parses, the single-series handler when its file parses;
    a row with fewer than seven fields is met only when a cursor reads it,
    and that advance raises [IndexError]. *)
Theorem construction_ignores_columns
    (fs : FileSystem) (events : list Event) (dir : string) (l : list string)
    (csv : string) (symbol : string) (gs : GenState)
    (b : Z * Row) (rest : list (Z * Row)) (bars : DataFrame)
    (g : SimpleCSVHandler.Gen) :
  (NoDup l ->
   (forall s, s ∈ l ->
      exists df, read_csv fs (os_path_join dir (s +:+ ".csv")) = Ok df) ->
   exists h, HistoricCSVDataHandler.__init__ fs events dir l = Ok h) /\
  ((exists df, read_csv fs csv = Ok df) ->
   exists h, SimpleCSVHandler.__init__ fs events csv = Ok h) /\
  (length b.2 < 7 ->
   (gs <> GEN_CLOSED ->
    (Cursor.advance symbol (gs, Some (HistoricCSVDataHandler.RowIter (b :: rest)))).1
    = Raise IndexError) /\
   (SimpleCSVHandler.gen_rows bars g = Some (b :: rest) ->
    (Cursor.simple_advance bars g).1 = Raise IndexError)).
Proof.
  split_and!.
  - intros Hnd Hfiles. unfold HistoricCSVDataHandler.__init__.
    destruct (new_open_convert_csv_files_ok fs dir l Hnd) as [[[sd lsd] comb] ->].
    + intros s Hs. unfold Feed.native. destruct (Hfiles s Hs) as [raw ->]. by eexists.
    + by eexists.
  - intros [raw Hraw]. unfold SimpleCSVHandler.__init__. rewrite Hraw.
    by eexists.
  - intros Hshort. apply row_fields_short in Hshort. split.
    + intros Hgs. unfold Cursor.advance, HistoricCSVDataHandler._get_new_bar. simpl.
      rewrite Hshort. by destruct gs.
    + intros Hrows. unfold Cursor.simple_advance, SimpleCSVHandler._get_new_bar.
      by rewrite Hrows, Hshort.
Qed.

(** Both handlers are built over a file that has only two columns. *)
Lemma two_columns_load_without_error :
  exists h g,
    HistoricCSVDataHandler.__init__ Samples.disk [] "data" ["BAD"] = Ok h /\
    SimpleCSVHandler.__init__ Samples.disk [] "data/BAD.csv" = Ok g /\
    columns (SimpleCSVHandler.bars g) = ["Date"; "Open"].
Proof. eexists _, _. split_and!; vm_compute; reflexivity. Qed.

(** Over that file the first [update_bars] raises [IndexError] and
    pushes no event, in both handlers. *)
Lemma two_columns_update_bars_raises :
  exists h g,
    HistoricCSVDataHandler.__init__ Samples.disk [] "data" ["BAD"] = Ok h /\
    SimpleCSVHandler.__init__ Samples.disk [] "data/BAD.csv" = Ok g /\
    (HistoricCSVDataHandler.update_bars h).2 = Some IndexError /\
    HistoricCSVDataHandler.events (HistoricCSVDataHandler.update_bars h).1 = [] /\
    (SimpleCSVHandler.update_bars g).2 = Some IndexError /\
    SimpleCSVHandler.events (SimpleCSVHandler.update_bars g).1 = [].
Proof. eexists _, _. split_and!; vm_compute; reflexivity. Qed.

(** C4 (the code at [N = 0] on a history of two bars): the query returns
    both bars, not the [min 0 2 = 0] bars a suffix of length [N] has. *)
Theorem get_latest_bars_zero_on_two_bars :
  exists h0 g0,
    HistoricCSVDataHandler.__init__ Samples.good_disk [] "data" ["MSFT"] = Ok h0 /\
    SimpleCSVHandler.__init__ Samples.good_disk [] "data/MSFT.csv" = Ok g0 /\
    let h := Feed.update_bars_n 2 h0 in
    let g := SimpleFeed.update_bars_n 2 g0 in
    length (Feed.History h "MSFT") = 2 /\
    (HistoricCSVDataHandler.get_latest_bars h "MSFT" 0).1
    = Some (Feed.History h "MSFT") /\
    length (SimpleCSVHandler.latest_symbol_data g) = 2 /\
    SimpleCSVHandler.get_latest_bars g None 0 = SimpleCSVHandler.latest_symbol_data g /\
    Z.to_nat (Z.min 0 2) = 0.
Proof.
  eexists _, _. split; [vm_compute; reflexivity|].
  split; [vm_compute; reflexivity|].
  intros h g. split_and!; vm_compute; reflexivity.
Qed.

(** ** The properties on the sample files *)

Lemma good_disk_seven_columns : Feed.all_seven_columns Samples.good_disk.
Proof.
  intros path df H. unfold Samples.good_disk in H.
  apply lookup_insert_Some in H as [[_ [= <-]]|[_ H]];
    [|apply lookup_insert_Some in H as [[_ [= <-]]|[_ H]]; [|by rewrite lookup_empty in H]];
    (split; [simpl; lia|repeat constructor]).
Qed.

Lemma sample_historic_reachable :
  Feed.reachable Samples.good_disk
    (Samples.historic_over Samples.good_disk ["AAPL"; "MSFT"]).
Proof.
  apply (Feed.reachable_init _ [] "data" ["AAPL"; "MSFT"]). vm_compute. reflexivity.
Qed.

Lemma sample_simple_reachable :
  SimpleFeed.reachable Samples.good_disk
    (Samples.simple_over Samples.good_disk "data/MSFT.csv").
Proof.
  apply (SimpleFeed.simple_reachable_init _ [] "data/MSFT.csv"). vm_compute. reflexivity.
Qed.

Lemma aligned_series_forward_fill_witness :
  let built := HistoricCSVDataHandler._new_open_convert_csv_files
                 Samples.disk "data" ["MSFT"; "AAPL"] ∅ ∅ in
  exists rows,
    match built with Ok (sd, _, _) => sd | Raise _ => ∅ end !! "AAPL"
    = Some (HistoricCSVDataHandler.RowIter rows) /\
    rows !! 1 = Some (1%Z, Samples.quote "2020-01-02" 10).
Proof.
  intros built.
  apply (aligned_series_forward_fill Samples.disk "data" ["MSFT"; "AAPL"]
           (match built with Ok (sd, _, _) => sd | Raise _ => ∅ end)
           (match built with Ok (_, lsd, _) => lsd | Raise _ => ∅ end)
           [0; 1]%Z "AAPL" (reset_index (dropna Samples.short_table)) 1 0 1%Z 0%Z
           (Samples.quote "2020-01-02" 10)).
  - vm_compute. reflexivity.
  - set_solver.
  - vm_compute. reflexivity.
  - reflexivity.
  - reflexivity.
  - reflexivity.
  - lia.
  - intros v Hv _. vm_compute in Hv. apply list_elem_of_singleton in Hv. lia.
Defined.

Lemma update_bars_advances_each_cursor_once_witness :
  let h := Samples.historic_over Samples.good_disk ["AAPL"; "MSFT"] in
  let g := Samples.simple_over Samples.good_disk "data/MSFT.csv" in
  (exists h',
     HistoricCSVDataHandler.update_bars h = (h', None) /\
     HistoricCSVDataHandler.events h'
     = HistoricCSVDataHandler.events h ++ [MarketEvent] /\
     forall s, s ∈ HistoricCSVDataHandler.symbol_list h ->
       exists c,
         Feed.cursor_of h s = Some c /\
         Feed.cursor_of h' s = Some (Cursor.advance s c).2 /\
         match (Cursor.advance s c).1 with
         | Ok bar => Feed.History h' s = Feed.History h s ++ [bar]
         | Raise StopIteration =>
             HistoricCSVDataHandler.continue_backtest h' = false /\
             Feed.History h' s = Feed.History h s
         | Raise _ => False
         end) /\
  (exists g',
     SimpleCSVHandler.update_bars g = (g', None) /\
     SimpleCSVHandler.events g' = SimpleCSVHandler.events g ++ [MarketEvent] /\
     SimpleCSVHandler.new_bar g'
     = (Cursor.simple_advance (SimpleCSVHandler.bars g) (SimpleCSVHandler.new_bar g)).2 /\
     match (Cursor.simple_advance (SimpleCSVHandler.bars g)
                                  (SimpleCSVHandler.new_bar g)).1 with
     | Ok bar =>
         SimpleCSVHandler.latest_symbol_data g'
         = SimpleCSVHandler.latest_symbol_data g ++ [bar]
     | Raise StopIteration =>
         SimpleCSVHandler.continue_backtest g' = false /\
         SimpleCSVHandler.latest_symbol_data g' = SimpleCSVHandler.latest_symbol_data g
     | Raise _ => False
     end).
Proof.
  intros h g.
  destruct (update_bars_advances_each_cursor_once Samples.good_disk h g
              good_disk_seven_columns) as [H1 H2].
  split.
  - apply H1, sample_historic_reachable.
  - apply H2, sample_simple_reachable.
Defined.

Lemma exhausted_cursor_stays_exhausted_witness :
  (Cursor.advance "AAPL"
     (Cursor.after "AAPL" 3
        (GEN_CLOSED, Some (HistoricCSVDataHandler.RowIter [])))).1
  = Raise StopIteration /\
  (Cursor.simple_advance Samples.short_table
     (Cursor.simple_after Samples.short_table 3 SimpleCSVHandler.Closed)).1
  = Raise StopIteration.
Proof.
  destruct (exhausted_cursor_stays_exhausted
              "AAPL" (GEN_SUSPENDED, Some (HistoricCSVDataHandler.RowIter []))
              (GEN_CLOSED, Some (HistoricCSVDataHandler.RowIter []))
              Samples.short_table (SimpleCSVHandler.Suspended [])
              SimpleCSVHandler.Closed 3) as [H1 H2].
  split.
  - apply H1. reflexivity.
  - apply H2. reflexivity.
Defined.

Lemma history_grows_by_at_most_one_witness :
  let h := Samples.historic_over Samples.good_disk ["AAPL"; "MSFT"] in
  exists ext,
    Feed.History (Feed.update_bars_n 2 h) "MSFT"
    = Feed.History (Feed.update_bars_n 1 h) "MSFT" ++ ext /\
    length ext <= 1.
Proof.
  intros h.
  apply (history_grows_by_at_most_one Samples.good_disk h
           (Samples.simple_over Samples.good_disk "data/MSFT.csv") "MSFT" 1).
  apply sample_historic_reachable.
Defined.

Lemma unknown_symbol_is_reported_witness :
  HistoricCSVDataHandler.get_latest_bars
    (Feed.update_bars_n 2 (Samples.historic_over Samples.good_disk ["AAPL"])) "MSFT" 1
  = (None, ["That symbol is not available in the historical data set."]).
Proof.
  apply (unknown_symbol_is_reported Samples.good_disk [] "data" ["AAPL"]).
  - vm_compute. reflexivity.
  - intros [=]%list_elem_of_singleton.
Defined.

Lemma get_latest_bars_zero_returns_all_witness :
  let h := Feed.update_bars_n 2 (Samples.historic_over Samples.good_disk ["MSFT"]) in
  let g := SimpleFeed.update_bars_n 2 (Samples.simple_over Samples.good_disk "data/MSFT.csv") in
  HistoricCSVDataHandler.get_latest_bars h "MSFT" 0
  = (Some [CStr "MSFT" :: Samples.quote "2020-01-02" 20;
           CStr "MSFT" :: Samples.quote "2020-01-06" 22], []) /\
  SimpleCSVHandler.get_latest_bars g None 0 = SimpleCSVHandler.latest_symbol_data g.
Proof.
  intros h g.
  apply (get_latest_bars_zero_returns_all h "MSFT"). vm_compute. reflexivity.
Defined.

Lemma bars_carry_the_symbol_in_historic_only_witness :
  let b := (0%Z, Samples.quote "2020-01-02" 10) in
  (exists b' rest,
     Some (HistoricCSVDataHandler.RowIter [b])
     = Some (HistoricCSVDataHandler.RowIter (b' :: rest)) /\
     7 <= length b'.2 /\
     Cursor.tagged "AAPL" (take 7 b'.2) (CStr "AAPL" :: Samples.quote "2020-01-02" 10) /\
     length (CStr "AAPL" :: Samples.quote "2020-01-02" 10) = 8) /\
  (exists b' rest,
     SimpleCSVHandler.gen_rows Samples.short_table SimpleCSVHandler.Created
     = Some (b' :: rest) /\
     7 <= length b'.2 /\
     Samples.quote "2020-01-02" 10 = take 7 b'.2 /\
     length (Samples.quote "2020-01-02" 10) = 7).
Proof.
  intros b.
  destruct (bars_carry_the_symbol_in_historic_only
              "AAPL" (GEN_CREATED, Some (HistoricCSVDataHandler.RowIter [b]))
              (GEN_SUSPENDED, Some (HistoricCSVDataHandler.RowIter []))
              (CStr "AAPL" :: Samples.quote "2020-01-02" 10)
              Samples.short_table SimpleCSVHandler.Created
              (SimpleCSVHandler.Suspended [])
              (Samples.quote "2020-01-02" 10)) as [H1 H2].
  split.
  - apply H1. reflexivity.
  - apply H2. reflexivity.
Defined.

Lemma construction_ignores_columns_witness :
  let b := (0%Z, [CStr "2020-01-02"; CNum 10]) in
  (exists h, HistoricCSVDataHandler.__init__ Samples.disk [] "data" ["BAD"; "AAPL"] = Ok h) /\
  (exists h, SimpleCSVHandler.__init__ Samples.disk [] "data/BAD.csv" = Ok h) /\
  (Cursor.advance "BAD" (GEN_CREATED, Some (HistoricCSVDataHandler.RowIter [b]))).1
  = Raise IndexError /\
  (Cursor.simple_advance Samples.dates_only SimpleCSVHandler.Created).1
  = Raise IndexError.
Proof.
  intros b.
  destruct (construction_ignores_columns
              Samples.disk [] "data" ["BAD"; "AAPL"] "data/BAD.csv" "BAD" GEN_CREATED
              b [] Samples.dates_only SimpleCSVHandler.Created) as (H1 & H2 & H3).
  split_and!.
  - apply H1.
    + apply NoDup_cons. split; [intros [=]%list_elem_of_singleton|].
      apply NoDup_singleton.
    + intros s Hs. apply elem_of_cons in Hs as [->|Hs];
        [|apply list_elem_of_singleton in Hs as ->]; eexists; vm_compute; reflexivity.
  - apply H2. eexists. vm_compute. reflexivity.
  - apply H3; [simpl; lia|done].
  - apply H3; [simpl; lia|reflexivity].
Defined.


(** * Further properties of the handlers *)

(** ** How [__init__] fails *)

Section InitFailures.
Import HistoricCSVDataHandler Feed.
Variable fs : FileSystem.
Variable dir : string.

(** The first loop stops at the first file that cannot be read. *)
Lemma load_csv_files_read_error l1 : forall sd lsd comb s l2 e,
  (forall s', s' ∈ l1 -> is_Some (native fs dir s')) ->
  read_csv fs (os_path_join dir (s +:+ ".csv")) = Raise e ->
  load_csv_files fs dir (l1 ++ s :: l2) sd lsd comb = Raise e.
Proof.
  induction l1 as [|s0 l1 IH]; intros sd lsd comb s l2 e Hok Herr; simpl.
  - by rewrite Herr.
  - destruct (Hok s0 ltac:(left)) as [df Hdf]. unfold native in Hdf.
    destruct (read_csv fs (os_path_join dir (s0 +:+ ".csv"))) as [raw|e0];
      [|discriminate].
    simpl. apply IH; [|done]. intros s' Hs'. apply Hok. by right.
Qed.

(** The second loop raises nothing but [AttributeError]. *)
Lemma reindex_frames_outcome l : forall comb sd,
  (forall s, s ∈ l -> is_Some (sd !! s)) ->
  (exists sd', reindex_frames l comb sd = Ok sd') \/
  reindex_frames l comb sd = Raise AttributeError.
Proof.
  induction l as [|s0 l IH]; intros comb sd Hall; [left; by eexists|].
  simpl. destruct (Hall s0 ltac:(left)) as [[df|rows] ->]; [|by right].
  apply IH. intros s Hs. destruct (decide (s0 = s)) as [->|Hne].
  - rewrite lookup_insert_eq. by eexists.
  - rewrite lookup_insert_ne by done. apply Hall. by right.
Qed.

End InitFailures.

(** X1: building a handler raises the error of the first file that
    cannot be read.  When the files of the symbols listed before [s]
    parse and reading the file of [s] raises [e] ([FileNotFoundError] for
    a missing file, [EmptyDataError] for a file with nothing in it,
    [ParserError] for lines that make no table), building the historic
    handler raises [e], whatever follows [s] in the list; building the
    single-series handler raises the error of its one file. *)
Theorem init_raises_first_read_error
    (fs : FileSystem) (events : list Event) (dir : string)
    (l1 : list string) (s : string) (l2 : list string) (csv : string) (e : Exn) :
  ((forall s', s' ∈ l1 ->
      exists df, read_csv fs (os_path_join dir (s' +:+ ".csv")) = Ok df) ->
   read_csv fs (os_path_join dir (s +:+ ".csv")) = Raise e ->
   HistoricCSVDataHandler.__init__ fs events dir (l1 ++ s :: l2) = Raise e) /\
  (read_csv fs csv = Raise e ->
   SimpleCSVHandler.__init__ fs events csv = Raise e).
Proof.
  split.
  - intros Hok Herr. unfold HistoricCSVDataHandler.__init__,
      HistoricCSVDataHandler._new_open_convert_csv_files.
    rewrite (load_csv_files_read_error fs dir l1 _ _ _ s l2 e); [done| |done].
    intros s' Hs'. unfold Feed.native. destruct (Hok s' Hs') as [df ->]. by eexists.
  - intros Herr. unfold SimpleCSVHandler.__init__. by rewrite Herr.
Qed.

(** What [read_csv] raises, by the state of the file. *)
Lemma read_csv_errors fs path :
  (fs !! path = None -> read_csv fs path = Raise FileNotFoundError) /\
  (fs !! path = Some EmptyFile -> read_csv fs path = Raise EmptyDataError) /\
  (fs !! path = Some BadLines -> read_csv fs path = Raise ParserError).
Proof. unfold read_csv. split_and!; by intros ->. Qed.

(** X2: when the file of every listed symbol parses but a symbol is
    listed twice, building the historic handler raises [AttributeError]:
    the second loop finds the symbol's entry already turned into a
    generator. *)
Theorem init_repeated_symbol
    (fs : FileSystem) (events : list Event) (dir : string) (l : list string) :
  (forall s, s ∈ l ->
     exists df, read_csv fs (os_path_join dir (s +:+ ".csv")) = Ok df) ->
  ~ NoDup l ->
  HistoricCSVDataHandler.__init__ fs events dir l = Raise AttributeError.
Proof.
  intros Hfiles Hdup.
  assert (Hnat : forall s, s ∈ l -> is_Some (Feed.native fs dir s)).
  { intros s Hs. unfold Feed.native. destruct (Hfiles s Hs) as [raw ->]. by eexists. }
  unfold HistoricCSVDataHandler.__init__,
    HistoricCSVDataHandler._new_open_convert_csv_files.
  destruct (load_csv_files_ok fs dir l ∅ ∅ None Hnat) as [[[sd1 lsd1] comb1] Hload].
  rewrite Hload. simpl.
  apply load_csv_files_inv in Hload as (Hin & _ & _).
  destruct (reindex_frames_outcome l comb1 sd1) as [[sd2 Hok]| ->]; [| |done].
  - intros s Hs. destruct (Hin s Hs) as (df & _ & -> & _). by eexists.
  - exfalso. apply Hdup. apply reindex_frames_inv in Hok as [Hnd _]; [done|].
    intros s Hs. destruct (Hin s Hs) as (df & _ & Hsd & _). eauto.
Qed.

(** X3: a handler that has just been built has served nothing: its
    symbol list and event sink are the ones given, [continue_backtest] is
    set, and every query on a listed symbol returns the empty list,
    whatever the count.  The same for the single-series handler. *)
Theorem fresh_handler_has_no_bars
    (fs : FileSystem) (events : list Event) (dir : string) (l : list string)
    (h : HistoricCSVDataHandler.t) (csv : string) (g : SimpleCSVHandler.t) :
  (HistoricCSVDataHandler.__init__ fs events dir l = Ok h ->
   HistoricCSVDataHandler.symbol_list h = l /\
   HistoricCSVDataHandler.events h = events /\
   HistoricCSVDataHandler.continue_backtest h = true /\
   forall s N, s ∈ l ->
     HistoricCSVDataHandler.get_latest_bars h s N = (Some [], [])) /\
  (SimpleCSVHandler.__init__ fs events csv = Ok g ->
   SimpleCSVHandler.events g = events /\
   SimpleCSVHandler.continue_backtest g = true /\
   forall symbol N, SimpleCSVHandler.get_latest_bars g symbol N = []).
Proof.
  split.
  - intros H. apply init_inv in H as (sd & lsd & comb & H & ->).
    apply new_open_convert_csv_files_inv in H as (_ & _ & Hin & _).
    split_and!; try done. intros s N Hs.
    destruct (Hin s Hs) as (df & _ & _ & Hl).
    unfold HistoricCSVDataHandler.get_latest_bars. simpl. rewrite Hl.
    unfold slice_from. by rewrite drop_nil.
  - unfold SimpleCSVHandler.__init__. intros H.
    destruct (read_csv fs csv) as [raw|e]; [|discriminate].
    inversion H; subst. split_and!; try done. intros symbol N.
    unfold SimpleCSVHandler.get_latest_bars, slice_from. simpl. by rewrite drop_nil.
Qed.

(** ** The aligned series in closed form *)

Section ClosedForm.
Import HistoricCSVDataHandler Feed.

Lemma native_index fs dir s df :
  native fs dir s = Some df -> index df = RangeIndex (length (values df)).
Proof.
  unfold native. intros H.
  destruct (read_csv fs (os_path_join dir (s +:+ ".csv"))) as [raw|e]; [|discriminate].
  by inversion H.
Qed.

Lemma RangeIndex_elem n v : v ∈ RangeIndex n -> exists i, v = Z.of_nat i /\ i < n.
Proof.
  unfold RangeIndex. intros H. apply list_elem_of_fmap in H as (i & -> & Hi).
  apply elem_of_seq in Hi. exists i. split; [done|lia].
Qed.

(** Forward fill over labels [0 .. n-1]: label [k] takes row [k], and
    past the end the last row. *)
Lemma pad_range rows k :
  rows <> [] ->
  pad (RangeIndex (length rows)) rows (Z.of_nat k) None
  = rows !! Nat.min k (length rows - 1).
Proof.
  intros Hne.
  assert (0 < length rows) as Hpos by (destruct rows; [done|simpl; lia]).
  destruct (lookup_lt_is_Some_2 rows (Nat.min k (length rows - 1)) ltac:(lia))
    as [row Hrow].
  rewrite Hrow.
  apply (pad_latest _ _ _ _ (Nat.min k (length rows - 1))
                    (Z.of_nat (Nat.min k (length rows - 1)))).
  - apply RangeIndex_sorted.
  - apply RangeIndex_lookup. lia.
  - done.
  - lia.
  - intros v Hv Hle. apply RangeIndex_elem in Hv as (i & -> & Hi). lia.
Qed.

(** The series of a freshly built handler, read off the files. *)
Lemma init_series fs events dir s0 l h s :
  __init__ fs events dir (s0 :: l) = Ok h ->
  s ∈ s0 :: l ->
  exists df0 df,
    native fs dir s0 = Some df0 /\ native fs dir s = Some df /\
    series h s = iterrows (reindex df (Some (RangeIndex (length (values df0))))).
Proof.
  intros H Hs. apply init_inv in H as (sd & lsd & comb & H & ->).
  apply new_open_convert_csv_files_inv in H as (_ & Hcomb & Hin & _).
  destruct (Hin s0 ltac:(left)) as (df0 & Hdf0 & _).
  destruct (Hin s Hs) as (df & Hdf & Hsd & _).
  exists df0, df. split_and!; [done|done|].
  unfold series. simpl. rewrite Hsd, Hcomb, Hdf0. simpl.
  by rewrite (native_index _ _ _ _ Hdf0).
Qed.

End ClosedForm.

(** X4: the series a freshly built historic handler will serve for a
    listed symbol has exactly as many rows as the FIRST listed symbol's
    file has complete rows, labelled [0, 1, ...]; its row [k] is the
    symbol's own complete row [k], and past the symbol's last complete
    row that last row again. *)
Theorem series_follows_first_symbol
    (fs : FileSystem) (events : list Event) (dir : string)
    (s0 : string) (l : list string) (h : HistoricCSVDataHandler.t)
    (s : string) (df0 df : DataFrame) :
  HistoricCSVDataHandler.__init__ fs events dir (s0 :: l) = Ok h ->
  s ∈ s0 :: l ->
  Feed.native fs dir s0 = Some df0 ->
  Feed.native fs dir s = Some df ->
  values df <> [] ->
  length (Feed.series h s) = length (values df0) /\
  forall k, k < length (values df0) ->
    exists row,
      values df !! Nat.min k (length (values df) - 1) = Some row /\
      Feed.series h s !! k = Some (Z.of_nat k, row).
Proof.
  intros H Hs Hdf0 Hdf Hne.
  destruct (init_series _ _ _ _ _ _ _ H Hs) as (df0' & df' & Hdf0' & Hdf' & ->).
  assert (df0' = df0) by congruence. assert (df' = df) by congruence. subst.
  split.
  - by rewrite iterrows_reindex_length, RangeIndex_length.
  - intros k Hk.
    rewrite (iterrows_reindex_lookup _ _ k (Z.of_nat k)) by by apply RangeIndex_lookup.
    rewrite (native_index _ _ _ _ Hdf), pad_range by done.
    assert (0 < length (values df)) as Hpos
      by (destruct (values df); [done|simpl; lia]).
    destruct (lookup_lt_is_Some_2 (values df) (Nat.min k (length (values df) - 1))
                ltac:(lia)) as [row Hrow].
    exists row. by rewrite Hrow.
Qed.

(** X5: a listed symbol whose file has no complete row is served rows
    of missing cells, one per complete row of the first symbol's file and
    as wide as its own header. *)
Theorem series_of_empty_file_is_missing
    (fs : FileSystem) (events : list Event) (dir : string)
    (s0 : string) (l : list string) (h : HistoricCSVDataHandler.t)
    (s : string) (df0 df : DataFrame) (k : nat) :
  HistoricCSVDataHandler.__init__ fs events dir (s0 :: l) = Ok h ->
  s ∈ s0 :: l ->
  Feed.native fs dir s0 = Some df0 ->
  Feed.native fs dir s = Some df ->
  values df = [] ->
  k < length (values df0) ->
  Feed.series h s !! k
  = Some (Z.of_nat k, replicate (length (columns df)) NaN).
Proof.
  intros H Hs Hdf0 Hdf Hnil Hk.
  destruct (init_series _ _ _ _ _ _ _ H Hs) as (df0' & df' & Hdf0' & Hdf' & ->).
  assert (df0' = df0) by congruence. assert (df' = df) by congruence. subst.
  rewrite (iterrows_reindex_lookup _ _ k (Z.of_nat k)) by by apply RangeIndex_lookup.
  by rewrite (native_index _ _ _ _ Hdf), Hnil.
Qed.

(** ** Streaming: what [n] calls of [update_bars] have delivered *)

Lemma forallb_all_true {A} (f : A -> bool) (l : list A) :
  (forall x, x ∈ l -> f x = true) -> forallb f l = true.
Proof.
  induction l as [|x l IH]; intros H; [done|]. simpl.
  rewrite (H x) by left. apply IH. intros y Hy. apply H. by right.
Qed.

Lemma forallb_absorb {A} (f g : A -> bool) (l : list A) :
  (forall x, g x = true -> f x = true) ->
  (forallb f l && forallb g l)%bool = forallb g l.
Proof.
  intros H. induction l as [|x l IH]; [done|]. simpl.
  destruct (g x) eqn:Hg; simpl.
  - rewrite (H x Hg). simpl. apply IH.
  - by rewrite andb_false_r.
Qed.

Section Streaming.
Import HistoricCSVDataHandler Feed.

(** One pass over a cursor that stands at position [n] of its series. *)
Lemma step_view_stream s g R n :
  (g = GEN_CLOSED -> length R <= n) ->
  Forall (fun b : Z * Row => 7 <= length b.2) (drop n R) ->
  exists g',
    step_view s (Some g, Some (RowIter (drop n R)), Some (take n (bar_of s <$> R)))
    = (Some g', Some (RowIter (drop (S n) R)), Some (take (S n) (bar_of s <$> R))) /\
    (g' = GEN_CLOSED -> length R <= S n) /\
    step_exhausted s (Some g, Some (RowIter (drop n R)), Some (take n (bar_of s <$> R)))
    = negb (S n <=? length R).
Proof.
  intros Hg Hok. destruct (R !! n) as [b|] eqn:Hn.
  - pose proof (lookup_lt_Some _ _ _ Hn) as Hlt.
    assert (Hleb : (S n <=? length R) = true) by (apply Nat.leb_le; lia).
    rewrite Hleb. rewrite (drop_S _ _ _ Hn) in *.
    apply Forall_cons in Hok as [Hb _].
    destruct (row_fields_ok _ Hb) as [cs Hcs].
    pose proof (row_fields_take _ _ Hcs) as ->.
    assert (Htake : take (S n) (bar_of s <$> R)
                    = take n (bar_of s <$> R) ++ [bar_of s b]).
    { apply take_S_r. by rewrite list_lookup_fmap, Hn. }
    rewrite Htake. exists GEN_SUSPENDED.
    unfold step_view, step_exhausted, Cursor.advance, _get_new_bar.
    destruct g; cbn [fst snd]; rewrite ?Hcs; cbn [fst snd];
      try (split_and!; [done|done|done]).
    specialize (Hg eq_refl). lia.
  - apply lookup_ge_None in Hn.
    assert (Hleb : (S n <=? length R) = false) by (apply Nat.leb_gt; lia).
    rewrite Hleb. rewrite !(drop_ge R) by lia.
    rewrite !take_ge by (rewrite length_fmap; lia).
    exists GEN_CLOSED.
    unfold step_view, step_exhausted, Cursor.advance, _get_new_bar.
    destruct g; cbn [fst snd]; (split_and!; [done|lia|done]).
Qed.

Variable fs : FileSystem.
Variable events0 : list Event.
Variable dir : string.
Variable l : list string.
Variable h0 : t.
Hypothesis Hfs : all_seven_columns fs.
Hypothesis Hinit : __init__ fs events0 dir l = Ok h0.

Lemma stream_reachable n : reachable fs (update_bars_n n h0).
Proof. apply reachable_update_bars_n. by econstructor. Qed.

Lemma stream_symbol_list n : symbol_list (update_bars_n n h0) = l.
Proof.
  rewrite update_bars_n_symbol_list by by eapply init_wf.
  apply init_inv in Hinit as (sd & lsd & comb & _ & ->). done.
Qed.

(** The handler after [n] calls: [n] events pushed, every cursor at
    position [n] of its series, every history the first [n] bars. *)
Lemma stream_invariant n :
  events (update_bars_n n h0) = events0 ++ replicate n MarketEvent /\
  continue_backtest (update_bars_n n h0)
  = forallb (fun s => n <=? length (series h0 s)) l /\
  forall s, s ∈ l ->
    symbol_data (update_bars_n n h0) !! s = Some (RowIter (drop n (series h0 s))) /\
    latest_symbol_data (update_bars_n n h0) !! s
    = Some (take n (bar_of s <$> series h0 s)) /\
    exists g, new_bar (update_bars_n n h0) !! s = Some g /\
              (g = GEN_CLOSED -> length (series h0 s) <= n).
Proof.
  induction n as [|n (IHev & IHc & IHs)].
  - pose proof (init_wf _ _ _ _ _ Hinit) as Hwf.
    pose proof Hinit as Hi.
    apply init_inv in Hi as (sd & lsd & comb & Hnew & Hh0).
    apply new_open_convert_csv_files_inv in Hnew as (_ & _ & Hin & _).
    cbn [update_bars_n]. split_and!.
    + subst h0. simpl. by rewrite app_nil_r.
    + rewrite forallb_all_true by done. by subst h0.
    + intros s Hs. destruct (Hin s Hs) as (df & _ & Hsd & Hl).
      unfold series. subst h0. cbn [symbol_data latest_symbol_data new_bar].
      rewrite Hsd, Hl. split_and!; [done|done|].
      exists GEN_CREATED. split; [|done].
      rewrite generators_lookup. by destruct (decide (s ∈ l)).
  - rewrite update_bars_n_succ.
    pose proof (stream_reachable n) as Hr.
    pose proof (reachable_wf _ _ Hr) as Hwf.
    pose proof (reachable_rows_ok _ _ Hfs Hr) as Hok.
    pose proof (update_bars_no_exn _ Hwf Hok) as Hnone.
    pose proof (stream_symbol_list n) as Hsl.
    destruct (update_bars (update_bars_n n h0)) as [h' e] eqn:Hup.
    cbn [fst snd] in *. subst e.
    apply update_bars_spec in Hup as (_ & _ & _ & Hall & _); [|apply Hwf].
    destruct (Hall eq_refl) as (Hev & Hstep & Hcont). rewrite Hsl in *.
    assert (Hper : forall s, s ∈ l ->
      exists g',
        view h' s
        = (Some g', Some (RowIter (drop (S n) (series h0 s))),
           Some (take (S n) (bar_of s <$> series h0 s))) /\
        (g' = GEN_CLOSED -> length (series h0 s) <= S n) /\
        step_exhausted s (view (update_bars_n n h0) s)
        = negb (S n <=? length (series h0 s))).
    { intros s Hs. destruct (IHs s Hs) as (Hd & Hl & g & Hg & Hclosed).
      destruct (step_view_stream s g (series h0 s) n Hclosed) as (g' & Hv & Hc' & Hx).
      { eapply Hok. done. }
      exists g'. destruct (Hstep s Hs) as [-> _].
      unfold view. rewrite Hg, Hd, Hl. done. }
    split_and!.
    + rewrite Hev, IHev, replicate_S_end. by rewrite app_assoc.
    + rewrite Hcont, IHc.
      rewrite (forallb_agree
                 (fun s => negb (step_exhausted s (view (update_bars_n n h0) s)))
                 (fun s => S n <=? length (series h0 s)) l).
      * apply forallb_absorb. intros s Hle.
        apply Nat.leb_le in Hle. apply Nat.leb_le. lia.
      * intros s Hs. destruct (Hper s Hs) as (g' & _ & _ & ->).
        by rewrite negb_involutive.
    + intros s Hs. destruct (Hper s Hs) as (g' & Hv & Hc' & _).
      unfold view in Hv. injection Hv as Hv1 Hv2 Hv3.
      split_and!; [done|done|by exists g'].
Qed.

(** Every series of the handler is as long as the first symbol's file
    has complete rows. *)
Lemma stream_series_length s0 l' df0 s :
  l = s0 :: l' -> native fs dir s0 = Some df0 -> s ∈ l ->
  length (series h0 s) = length (values df0).
Proof.
  intros -> Hdf0 Hs.
  destruct (init_series _ _ _ _ _ _ _ Hinit Hs) as (df0' & df & Hdf0' & _ & ->).
  assert (df0' = df0) by congruence. subst.
  by rewrite iterrows_reindex_length, RangeIndex_length.
Qed.

End Streaming.

(** X6: no look-ahead.  Over files that all have at least seven columns,
    after [n] calls of [update_bars] on a freshly built handler the
    history of a listed symbol is exactly the first [n] rows of its series
    (all of them once the series is used up), each turned into the bar
    "symbol, then the row's first seven fields", in order; the rows still
    to be served are the rest of the series. *)
Theorem history_is_prefix_of_series
    (fs : FileSystem) (events : list Event) (dir : string) (l : list string)
    (h0 : HistoricCSVDataHandler.t) (s : string) (n : nat) :
  Feed.all_seven_columns fs ->
  HistoricCSVDataHandler.__init__ fs events dir l = Ok h0 ->
  s ∈ l ->
  Feed.History (Feed.update_bars_n n h0) s
  = take n (Feed.bar_of s <$> Feed.series h0 s) /\
  Feed.series (Feed.update_bars_n n h0) s = drop n (Feed.series h0 s).
Proof.
  intros Hfs Hinit Hs.
  destruct (stream_invariant fs events dir l h0 Hfs Hinit n) as (_ & _ & Hall).
  destruct (Hall s Hs) as (Hd & Hl & _).
  unfold Feed.History, Feed.series at 2. by rewrite Hd, Hl.
Qed.

(** X7: over such files, after [n] calls on a freshly built handler with
    a non-empty symbol list the event sink has received exactly [n]
    [MarketEvent]s after what it held, and [continue_backtest] is still
    set exactly when [n] does not exceed the number of complete rows of
    the first symbol's file: the call after the last row clears it. *)
Theorem continue_backtest_until_first_file_ends
    (fs : FileSystem) (events : list Event) (dir : string)
    (s0 : string) (l : list string) (h0 : HistoricCSVDataHandler.t)
    (df0 : DataFrame) (n : nat) :
  Feed.all_seven_columns fs ->
  HistoricCSVDataHandler.__init__ fs events dir (s0 :: l) = Ok h0 ->
  Feed.native fs dir s0 = Some df0 ->
  HistoricCSVDataHandler.events (Feed.update_bars_n n h0)
  = events ++ replicate n MarketEvent /\
  HistoricCSVDataHandler.continue_backtest (Feed.update_bars_n n h0)
  = (n <=? length (values df0)).
Proof.
  intros Hfs Hinit Hdf0.
  destruct (stream_invariant fs events dir _ h0 Hfs Hinit n) as (Hev & Hc & _).
  split; [done|]. rewrite Hc.
  rewrite (forallb_agree _ (fun _ => n <=? length (values df0))).
  - simpl. destruct (n <=? length (values df0)); [|done]. simpl.
    by apply forallb_all_true.
  - intros s Hs. cbv beta.
    by rewrite (stream_series_length fs events dir _ h0 Hinit s0 l df0 s).
Qed.

(** X8: over such files every listed symbol's history has, after [n]
    calls, exactly [min n n0] bars, [n0] being the number of complete rows
    of the first symbol's file: the histories grow in lockstep and stop
    together. *)
Theorem histories_grow_in_lockstep
    (fs : FileSystem) (events : list Event) (dir : string)
    (s0 : string) (l : list string) (h0 : HistoricCSVDataHandler.t)
    (df0 : DataFrame) (s : string) (n : nat) :
  Feed.all_seven_columns fs ->
  HistoricCSVDataHandler.__init__ fs events dir (s0 :: l) = Ok h0 ->
  Feed.native fs dir s0 = Some df0 ->
  s ∈ s0 :: l ->
  length (Feed.History (Feed.update_bars_n n h0) s)
  = Nat.min n (length (values df0)).
Proof.
  intros Hfs Hinit Hdf0 Hs.
  destruct (stream_invariant fs events dir _ h0 Hfs Hinit n) as (_ & _ & Hall).
  destruct (Hall s Hs) as (_ & Hl & _).
  unfold Feed.History. rewrite Hl. simpl.
  rewrite length_take, length_fmap.
  by rewrite (stream_series_length fs events dir _ h0 Hinit s0 l df0 s).
Qed.

Lemma update_bars_n_no_symbols n : forall h,
  HistoricCSVDataHandler.symbol_list h = [] ->
  HistoricCSVDataHandler.continue_backtest (Feed.update_bars_n n h)
  = HistoricCSVDataHandler.continue_backtest h /\
  HistoricCSVDataHandler.events (Feed.update_bars_n n h)
  = HistoricCSVDataHandler.events h ++ replicate n MarketEvent.
Proof.
  induction n as [|n IH]; intros h Hl.
  - simpl. by rewrite app_nil_r.
  - cbn [Feed.update_bars_n].
    assert (Hup : HistoricCSVDataHandler.update_bars h
                  = (HistoricCSVDataHandler.mk
                       (HistoricCSVDataHandler.events h ++ [MarketEvent])
                       (HistoricCSVDataHandler.csv_dir h)
                       (HistoricCSVDataHandler.symbol_list h)
                       (HistoricCSVDataHandler.symbol_data h)
                       (HistoricCSVDataHandler.latest_symbol_data h)
                       (HistoricCSVDataHandler.continue_backtest h)
                       (HistoricCSVDataHandler.new_bar h), None)).
    { unfold HistoricCSVDataHandler.update_bars. rewrite Hl. simpl. by rewrite Hl. }
    rewrite Hup. cbn [fst].
    destruct (IH (HistoricCSVDataHandler.mk
                    (HistoricCSVDataHandler.events h ++ [MarketEvent])
                    (HistoricCSVDataHandler.csv_dir h)
                    (HistoricCSVDataHandler.symbol_list h)
                    (HistoricCSVDataHandler.symbol_data h)
                    (HistoricCSVDataHandler.latest_symbol_data h)
                    (HistoricCSVDataHandler.continue_backtest h)
                    (HistoricCSVDataHandler.new_bar h)) Hl) as [-> ->].
    split; [done|]. cbn [HistoricCSVDataHandler.events].
    by rewrite <- app_assoc.
Qed.

(** X9: with an empty symbol list every call of [update_bars] only
    pushes one [MarketEvent]: [continue_backtest] is never cleared, so a
    loop driven by it does not end. *)
Theorem empty_symbol_list_never_stops
    (fs : FileSystem) (events : list Event) (dir : string)
    (h0 : HistoricCSVDataHandler.t) (n : nat) :
  HistoricCSVDataHandler.__init__ fs events dir [] = Ok h0 ->
  HistoricCSVDataHandler.continue_backtest (Feed.update_bars_n n h0) = true /\
  HistoricCSVDataHandler.events (Feed.update_bars_n n h0)
  = events ++ replicate n MarketEvent.
Proof.
  intros Hinit. apply init_inv in Hinit as (sd & lsd & comb & _ & Hh0).
  assert (Hl : HistoricCSVDataHandler.symbol_list h0 = []) by by subst.
  destruct (update_bars_n_no_symbols n h0 Hl) as [-> ->]. by subst.
Qed.

Section SimpleStreaming.
Import SimpleCSVHandler SimpleFeed.

(** One call on a single-series handler whose cursor stands at
    position [n] of the rows [R]. *)
Lemma simple_stream_step (R : list (Z * Row)) (ev : list Event) n g :
  Forall (fun b : Z * Row => 7 <= length b.2) R ->
  events g = ev ++ replicate n MarketEvent ->
  continue_backtest g = (n <=? length R) ->
  latest_symbol_data g = take n (bar_of <$> R) ->
  (gen_rows (bars g) (new_bar g) = Some (drop n R) \/
   (new_bar g = Closed /\ length R <= n)) ->
  (update_bars g).2 = None /\
  bars (update_bars g).1 = bars g /\
  events (update_bars g).1 = ev ++ replicate (S n) MarketEvent /\
  continue_backtest (update_bars g).1 = (S n <=? length R) /\
  latest_symbol_data (update_bars g).1 = take (S n) (bar_of <$> R) /\
  (gen_rows (bars (update_bars g).1) (new_bar (update_bars g).1)
   = Some (drop (S n) R) \/
   (new_bar (update_bars g).1 = Closed /\ length R <= S n)).
Proof.
  intros Hok Hev Hc Hl Hgen.
  assert (Hev' : events g ++ [MarketEvent] = ev ++ replicate (S n) MarketEvent).
  { by rewrite Hev, replicate_S_end, app_assoc. }
  destruct (R !! n) as [b|] eqn:Hn.
  - pose proof (lookup_lt_Some _ _ _ Hn) as Hlt.
    destruct Hgen as [Hgen|[_ ?]]; [|lia].
    rewrite (drop_S _ _ _ Hn) in Hgen.
    assert (Hb : 7 <= length b.2).
    { rewrite Forall_forall in Hok. apply Hok. by eapply list_elem_of_lookup_2. }
    destruct (row_fields_ok _ Hb) as [cs Hcs].
    pose proof (row_fields_take _ _ Hcs) as Hcs'.
    assert (Hleb : (S n <=? length R) = true) by (apply Nat.leb_le; lia).
    assert (Hleb' : (n <=? length R) = true) by (apply Nat.leb_le; lia).
    assert (Htake : take (S n) (bar_of <$> R) = take n (bar_of <$> R) ++ [bar_of b]).
    { apply take_S_r. by rewrite list_lookup_fmap, Hn. }
    rewrite Hleb, Htake. rewrite Hleb' in Hc.
    unfold update_bars, _get_new_bar. rewrite Hgen, Hcs.
    cbn [fst snd bars events continue_backtest latest_symbol_data new_bar gen_rows].
    split_and!; try done.
    + by rewrite Hl, Hcs'.
    + by left.
  - apply lookup_ge_None in Hn.
    assert (Hleb : (S n <=? length R) = false) by (apply Nat.leb_gt; lia).
    assert (Htake : take (S n) (bar_of <$> R) = take n (bar_of <$> R)).
    { rewrite !take_ge; [done|rewrite length_fmap; lia|rewrite length_fmap; lia]. }
    rewrite Hleb, Htake.
    assert (Hrows : gen_rows (bars g) (new_bar g) = Some [] \/
                    gen_rows (bars g) (new_bar g) = None).
    { destruct Hgen as [Hgen|[-> _]]; [left|by right].
      by rewrite Hgen, drop_ge. }
    unfold update_bars, _get_new_bar.
    destruct Hrows as [-> | ->];
      cbn [fst snd bars events continue_backtest latest_symbol_data new_bar gen_rows];
      (split_and!; try done; right; split; [done|lia]).
Qed.

Variable fs : FileSystem.
Variable events0 : list Event.
Variable csv : string.
Variable g0 : t.
Hypothesis Hfs : Feed.all_seven_columns fs.
Hypothesis Hinit : __init__ fs events0 csv = Ok g0.

Lemma simple_stream_invariant n :
  bars (update_bars_n n g0) = bars g0 /\
  events (update_bars_n n g0) = events0 ++ replicate n MarketEvent /\
  continue_backtest (update_bars_n n g0) = (n <=? length (series g0)) /\
  latest_symbol_data (update_bars_n n g0) = take n (bar_of <$> series g0) /\
  (gen_rows (bars (update_bars_n n g0)) (new_bar (update_bars_n n g0))
   = Some (drop n (series g0)) \/
   (new_bar (update_bars_n n g0) = Closed /\ length (series g0) <= n)).
Proof.
  assert (Hok : Forall (fun b : Z * Row => 7 <= length b.2) (series g0)).
  { apply (simple_init_rows_ok _ _ _ _ Hfs Hinit).
    pose proof Hinit as Hi. unfold __init__ in Hi.
    destruct (read_csv fs csv) as [raw|e]; [|discriminate]. by inversion Hi. }
  induction n as [|n (IHb & IHev & IHc & IHl & IHg)].
  - pose proof Hinit as Hi. unfold __init__ in Hi.
    destruct (read_csv fs csv) as [raw|e]; [|discriminate]. inversion Hi; subst. cbn.
    rewrite app_nil_r. split_and!; try done. by left.
  - rewrite simple_update_bars_n_succ.
    destruct (simple_stream_step (series g0) events0 n (update_bars_n n g0)
                Hok IHev IHc IHl)
      as (_ & Hb & Hev & Hc & Hl & Hg).
    { exact IHg. }
    split_and!; [by rewrite Hb|done|done|done|done].
Qed.

End SimpleStreaming.

(** X10: the single-series handler over a file with at least seven
    columns.  After [n] calls of [update_bars] on a freshly built handler
    the history is the first [n] complete rows of the file (all of them
    once they are used up), each as the bar of its first seven fields, in
    order; exactly [n] [MarketEvent]s have been pushed; and
    [continue_backtest] is set exactly when [n] does not exceed the number
    of complete rows. *)
Theorem simple_handler_streams_the_file
    (fs : FileSystem) (events : list Event) (csv : string)
    (g0 : SimpleCSVHandler.t) (n : nat) :
  Feed.all_seven_columns fs ->
  SimpleCSVHandler.__init__ fs events csv = Ok g0 ->
  SimpleCSVHandler.latest_symbol_data (SimpleFeed.update_bars_n n g0)
  = take n (SimpleFeed.bar_of <$> SimpleFeed.series g0) /\
  SimpleCSVHandler.events (SimpleFeed.update_bars_n n g0)
  = events ++ replicate n MarketEvent /\
  SimpleCSVHandler.continue_backtest (SimpleFeed.update_bars_n n g0)
  = (n <=? length (SimpleFeed.series g0)).
Proof.
  intros Hfs Hinit.
  destruct (simple_stream_invariant fs events csv g0 Hfs Hinit n)
    as (_ & Hev & Hc & Hl & _).
  done.
Qed.

(** ** The flag and the event sink *)

Section FlagAndSink.
Import HistoricCSVDataHandler.

Lemma update_loop_continue_false l : forall h,
  continue_backtest h = false -> continue_backtest (update_loop l h).1 = false.
Proof.
  induction l as [|s0 l IH]; intros h Hc; [done|]. simpl.
  pose proof (update_symbol_continue s0 h) as Hs. rewrite Hc in Hs. simpl in Hs.
  destruct (update_symbol s0 h) as [h1 [e|]]; [done|]. by apply IH.
Qed.

Lemma update_loop_events l : forall h, events (update_loop l h).1 = events h.
Proof.
  induction l as [|s0 l IH]; intros h; [done|]. simpl.
  pose proof (update_symbol_frame s0 h) as [_ Hev].
  destruct (update_symbol s0 h) as [h1 [e|]]; [done|].
  rewrite IH. done.
Qed.

End FlagAndSink.

(** X11: once [continue_backtest] is false no number of further calls
    of [update_bars] sets it again, in either handler and from any state. *)
Theorem continue_backtest_stays_false
    (h : HistoricCSVDataHandler.t) (g : SimpleCSVHandler.t) (n : nat) :
  (HistoricCSVDataHandler.continue_backtest h = false ->
   HistoricCSVDataHandler.continue_backtest (Feed.update_bars_n n h) = false) /\
  (SimpleCSVHandler.continue_backtest g = false ->
   SimpleCSVHandler.continue_backtest (SimpleFeed.update_bars_n n g) = false).
Proof.
  split.
  - revert h. induction n as [|n IH]; intros h Hc; [done|].
    cbn [Feed.update_bars_n]. apply IH.
    unfold HistoricCSVDataHandler.update_bars.
    pose proof (update_loop_continue_false (HistoricCSVDataHandler.symbol_list h) h Hc)
      as Hl.
    by destruct (HistoricCSVDataHandler.update_loop _ h) as [h1 [e|]].
  - revert g. induction n as [|n IH]; intros g Hc; [done|].
    cbn [SimpleFeed.update_bars_n]. apply IH.
    unfold SimpleCSVHandler.update_bars.
    by destruct (SimpleCSVHandler._get_new_bar _ _) as [[bar|[]] g'].
Qed.

(** X12: a call of [update_bars] leaves what the event sink holds in
    place and appends exactly one [MarketEvent] when it returns normally,
    nothing when an exception escapes; in either handler, from any state. *)
Theorem update_bars_pushes_one_event_or_raises
    (h : HistoricCSVDataHandler.t) (g : SimpleCSVHandler.t) :
  HistoricCSVDataHandler.events (HistoricCSVDataHandler.update_bars h).1
  = HistoricCSVDataHandler.events h
    ++ match (HistoricCSVDataHandler.update_bars h).2 with
       | None => [MarketEvent]
       | Some _ => []
       end /\
  SimpleCSVHandler.events (SimpleCSVHandler.update_bars g).1
  = SimpleCSVHandler.events g
    ++ match (SimpleCSVHandler.update_bars g).2 with
       | None => [MarketEvent]
       | Some _ => []
       end.
Proof.
  split.
  - unfold HistoricCSVDataHandler.update_bars.
    pose proof (update_loop_events (HistoricCSVDataHandler.symbol_list h) h) as Hev.
    destruct (HistoricCSVDataHandler.update_loop _ h) as [h1 [e|]]; simpl in *.
    + by rewrite app_nil_r.
    + by rewrite Hev.
  - unfold SimpleCSVHandler.update_bars.
    destruct (SimpleCSVHandler._get_new_bar _ _) as [[bar|[]] g']; simpl;
      by rewrite ?app_nil_r.
Qed.

(** ** After an exception *)

Lemma advance_raise_closed symbol c e c' :
  Cursor.advance symbol c = (Raise e, c') -> c'.1 = GEN_CLOSED.
Proof.
  destruct c as [g d]. unfold Cursor.advance, HistoricCSVDataHandler._get_new_bar.
  simpl. intros H.
  destruct g; try (by inversion H);
    (destruct d as [[df|[|b rest]]|]; [destruct (columns df)| |destruct (row_fields b.2)|]);
    by inversion H.
Qed.

Lemma simple_advance_raise_closed bars g e g' :
  Cursor.simple_advance bars g = (Raise e, g') -> g' = SimpleCSVHandler.Closed.
Proof.
  unfold Cursor.simple_advance, SimpleCSVHandler._get_new_bar. intros H.
  destruct (SimpleCSVHandler.gen_rows bars g) as [[|b rest]|];
    [| destruct (row_fields b.2) |]; by inversion H.
Qed.

(** X13: an exception of any kind ends a cursor.  After an advance that
    raised, every later advance of that cursor signals exhaustion; and
    when [update_bars] of the single-series handler has let an exception
    out, the next call returns normally, serves nothing, clears
    [continue_backtest] and pushes its one event: the rows after the
    faulty one are never served. *)
Theorem a_raise_ends_the_cursor
    (symbol : string) (c c' : Cursor.t) (e e' : Exn) (n : nat)
    (g : SimpleCSVHandler.t) :
  (Cursor.advance symbol c = (Raise e, c') ->
   (Cursor.advance symbol (Cursor.after symbol n c')).1 = Raise StopIteration) /\
  ((SimpleCSVHandler.update_bars g).2 = Some e' ->
   let g1 := (SimpleCSVHandler.update_bars g).1 in
   (SimpleCSVHandler.update_bars g1).2 = None /\
   SimpleCSVHandler.continue_backtest (SimpleCSVHandler.update_bars g1).1 = false /\
   SimpleCSVHandler.latest_symbol_data (SimpleCSVHandler.update_bars g1).1
   = SimpleCSVHandler.latest_symbol_data g /\
   SimpleCSVHandler.events (SimpleCSVHandler.update_bars g1).1
   = SimpleCSVHandler.events g ++ [MarketEvent]).
Proof.
  split.
  - intros H. apply advance_raise_closed in H.
    destruct c' as [gc d]. simpl in H. subst gc. by rewrite after_closed.
  - intros H g1. subst g1.
    unfold SimpleCSVHandler.update_bars in H |- *.
    destruct (SimpleCSVHandler._get_new_bar (SimpleCSVHandler.bars g)
                (SimpleCSVHandler.new_bar g)) as [r g'] eqn:Hadv.
    destruct r as [bar|ex]; [simpl in H; discriminate|].
    pose proof (simple_advance_raise_closed _ _ _ _ Hadv) as ->.
    destruct ex; simpl in H; try discriminate; simpl; done.
Qed.

(** ** What the histories hold *)

Lemma advance_ok_bar s g d bar c' :
  Cursor.advance s (g, d) = (Ok bar, c') ->
  exists b rest,
    d = Some (HistoricCSVDataHandler.RowIter (b :: rest)) /\
    7 <= length b.2 /\ bar = Feed.bar_of s b.
Proof.
  unfold Cursor.advance, HistoricCSVDataHandler._get_new_bar. simpl. intros H.
  destruct g; try (by inversion H);
    (destruct d as [[df|[|b rest]]|]; [destruct (columns df)| | |]; try (by inversion H);
     destruct (row_fields b.2) as [cs|] eqn:Hcs; [|by inversion H];
     inversion H; subst; exists b, rest;
     pose proof (row_fields_take _ _ Hcs) as ->;
     split_and!; [done| |done];
     destruct (le_lt_dec 7 (length b.2)) as [|Hlt]; [done|];
     apply row_fields_short in Hlt; congruence).
Qed.

Lemma bar_of_shape s b :
  7 <= length b.2 ->
  exists fields, Feed.bar_of s b = CStr s :: fields /\ length fields = 7.
Proof.
  intros H. exists (take 7 b.2). split; [done|]. rewrite length_take. lia.
Qed.

Section Routing.
Import HistoricCSVDataHandler Feed.

Lemma reachable_history_tagged fs h s :
  reachable fs h ->
  Forall (fun bar => exists fields, bar = CStr s :: fields /\ length fields = 7)
         (History h s).
Proof.
  induction 1 as [events dir l h H|h Hr IH].
  - apply init_inv in H as (sd & lsd & comb & H & ->).
    apply new_open_convert_csv_files_inv in H as (_ & _ & Hin & Hout).
    unfold History. simpl. destruct (decide (s ∈ l)) as [Hs|Hs].
    + destruct (Hin s Hs) as (df & _ & _ & ->). constructor.
    + destruct (Hout s Hs) as [_ ->]. constructor.
  - pose proof (reachable_wf _ _ Hr) as Hwf.
    destruct (update_bars h) as [h' e] eqn:Hup. simpl.
    apply update_bars_spec in Hup as (_ & Hout & Hin & _); [|apply Hwf].
    assert (Hsame : view h' s = view h s -> History h' s = History h s).
    { unfold view, History. intros Hv. injection Hv as _ _ ->. done. }
    destruct (decide (s ∈ symbol_list h)) as [Hs|Hs];
      [|by rewrite Hsame by by apply Hout].
    destruct (Hin s Hs) as [Hv|Hv]; [by rewrite Hsame|].
    destruct (step_view_hist s (view h s)) as [Heq|(bl & g & bar & Hl & Hg & Hadv & Heq)];
      rewrite <- Hv in Heq; unfold History in *; simpl in *.
    + by rewrite Heq.
    + rewrite Heq. rewrite Hl in IH. simpl in *.
      apply Forall_app. split; [done|]. constructor; [|constructor].
      destruct (Cursor.advance s (g, symbol_data h !! s)) as [r c'] eqn:Hadv'.
      simpl in Hadv. subst r.
      apply advance_ok_bar in Hadv' as (b & rest & _ & Hb & ->).
      by apply bar_of_shape.
Qed.

End Routing.

(** X14: whatever the files hold, every bar that [get_latest_bars]
    returns for a symbol, at any point of a handler's life, starts with
    that very symbol and has seven more components. *)
Theorem get_latest_bars_returns_own_bars
    (fs : FileSystem) (h : HistoricCSVDataHandler.t) (s : string) (N : Z)
    (bars_list : list Bar) (bar : Bar) :
  Feed.reachable fs h ->
  (HistoricCSVDataHandler.get_latest_bars h s N).1 = Some bars_list ->
  bar ∈ bars_list ->
  exists fields, bar = CStr s :: fields /\ length fields = 7.
Proof.
  intros Hr Hget Hbar.
  pose proof (reachable_history_tagged fs h s Hr) as Hall.
  unfold HistoricCSVDataHandler.get_latest_bars in Hget.
  unfold Feed.History in Hall.
  destruct (HistoricCSVDataHandler.latest_symbol_data h !! s) as [bl|];
    [|discriminate].
  simpl in *. inversion Hget; subst.
  rewrite Forall_forall in Hall. apply Hall.
  eapply elem_of_suffix; [done|]. apply slice_from_suffix.
Qed.

(** X16: a negative count does not fail: [get_latest_bars] then returns
    the history without its first [-N] bars (nothing once [-N] reaches
    its length), in both handlers. *)
Theorem get_latest_bars_negative_count
    (h : HistoricCSVDataHandler.t) (s : string) (bars_list : list Bar)
    (g : SimpleCSVHandler.t) (symbol : option string) (N : Z) :
  (N < 0)%Z ->
  (HistoricCSVDataHandler.latest_symbol_data h !! s = Some bars_list ->
   HistoricCSVDataHandler.get_latest_bars h s N
   = (Some (drop (Z.to_nat (- N)) bars_list), [])) /\
  SimpleCSVHandler.get_latest_bars g symbol N
  = drop (Z.to_nat (- N)) (SimpleCSVHandler.latest_symbol_data g).
Proof.
  intros HN. split.
  - intros H. unfold HistoricCSVDataHandler.get_latest_bars. rewrite H.
    by rewrite slice_from_negative_count.
  - unfold SimpleCSVHandler.get_latest_bars. by rewrite slice_from_negative_count.
Qed.

(** ** Missing cells *)

Lemma forallb_not_na row :
  forallb (fun c => negb (isna c)) row = true -> Forall (fun c => isna c = false) row.
Proof.
  induction row as [|c row IH]; simpl; intros H; [constructor|].
  apply andb_true_iff in H as [Hc Hrow]. constructor; [|by apply IH].
  by destruct (isna c).
Qed.

Lemma dropna_rows_complete raw row :
  row ∈ values (reset_index (dropna raw)) -> Forall (fun c => isna c = false) row.
Proof.
  simpl. intros H. apply list_elem_of_fmap in H as ([t r] & -> & H).
  apply list_elem_of_filter in H as [H _]. by apply forallb_not_na.
Qed.

Lemma bar_of_complete s b :
  Forall (fun c => isna c = false) b.2 -> Feed.complete (Feed.bar_of s b).
Proof. intros H. constructor; [done|]. by apply Forall_take. Qed.

Lemma simple_bar_of_complete b :
  Forall (fun c => isna c = false) b.2 -> Feed.complete (SimpleFeed.bar_of b).
Proof. intros H. by apply Forall_take. Qed.

(** The series of a symbol that has a complete row is made of its own
    complete rows. *)
Lemma init_series_rows fs events dir s0 l h s df b :
  HistoricCSVDataHandler.__init__ fs events dir (s0 :: l) = Ok h ->
  s ∈ s0 :: l ->
  Feed.native fs dir s = Some df ->
  values df <> [] ->
  b ∈ Feed.series h s ->
  b.2 ∈ values df.
Proof.
  intros H Hs Hdf Hne Hb.
  destruct (init_series _ _ _ _ _ _ _ H Hs) as (df0 & df' & _ & Hdf' & Heq).
  assert (df' = df) by congruence. subst df'. rewrite Heq in Hb.
  destruct b as [t r]. unfold iterrows in Hb. apply elem_of_zip_r in Hb.
  simpl in Hb. apply list_elem_of_fmap in Hb as (t' & -> & Ht').
  apply RangeIndex_elem in Ht' as (k & -> & _).
  rewrite (native_index _ _ _ _ Hdf), pad_range by done.
  assert (0 < length (values df)) as Hpos
    by (destruct (values df); [done|simpl; lia]).
  destruct (lookup_lt_is_Some_2 (values df) (Nat.min k (length (values df) - 1))
              ltac:(lia)) as [row Hrow].
  rewrite Hrow. simpl. by eapply list_elem_of_lookup_2.
Qed.

(** X17: rows with a missing cell are never served.  Over files with at
    least seven columns, no bar in the history of a listed symbol whose
    file has a complete row holds a missing cell, and no bar of the
    single-series handler does. *)
Theorem served_bars_have_no_missing_cell
    (fs : FileSystem) (events : list Event) (dir : string)
    (s0 : string) (l : list string) (h0 : HistoricCSVDataHandler.t)
    (s : string) (df : DataFrame) (csv : string) (g0 : SimpleCSVHandler.t)
    (n : nat) (bar : Bar) :
  Feed.all_seven_columns fs ->
  (HistoricCSVDataHandler.__init__ fs events dir (s0 :: l) = Ok h0 ->
   s ∈ s0 :: l ->
   Feed.native fs dir s = Some df ->
   values df <> [] ->
   bar ∈ Feed.History (Feed.update_bars_n n h0) s ->
   Feed.complete bar) /\
  (SimpleCSVHandler.__init__ fs events csv = Ok g0 ->
   bar ∈ SimpleCSVHandler.latest_symbol_data (SimpleFeed.update_bars_n n g0) ->
   Feed.complete bar).
Proof.
  intros Hfs. split.
  - intros Hinit Hs Hdf Hne Hbar.
    destruct (stream_invariant fs events dir _ h0 Hfs Hinit n) as (_ & _ & Hall).
    destruct (Hall s Hs) as (_ & Hl & _).
    unfold Feed.History in Hbar. rewrite Hl in Hbar. simpl in Hbar.
    apply subseteq_take in Hbar.
    apply list_elem_of_fmap in Hbar as (b & -> & Hb).
    apply bar_of_complete.
    pose proof (init_series_rows _ _ _ _ _ _ _ _ _ Hinit Hs Hdf Hne Hb) as Hrow.
    unfold Feed.native in Hdf.
    destruct (read_csv fs (os_path_join dir (s +:+ ".csv"))) as [raw|e]; [|discriminate].
    inversion Hdf; subst. by eapply dropna_rows_complete.
  - intros Hinit Hbar.
    destruct (simple_stream_invariant fs events csv g0 Hfs Hinit n)
      as (_ & _ & _ & Hl & _).
    rewrite Hl in Hbar. apply subseteq_take in Hbar.
    apply list_elem_of_fmap in Hbar as (b & -> & Hb).
    apply simple_bar_of_complete.
    unfold SimpleCSVHandler.__init__ in Hinit.
    destruct (read_csv fs csv) as [raw|e]; [|discriminate]. inversion Hinit; subst.
    unfold SimpleFeed.series, iterrows in Hb. simpl in Hb.
    destruct b as [t r]. apply elem_of_zip_r in Hb.
    simpl. apply (dropna_rows_complete raw). exact Hb.
Qed.


(** ** The further properties on the sample files *)

Lemma init_raises_first_read_error_witness :
  HistoricCSVDataHandler.__init__ Samples.broken_disk [] "data"
    (["AAPL"] ++ "ZERO" :: ["GOOG"; "AAPL"])
  = Raise EmptyDataError /\
  SimpleCSVHandler.__init__ Samples.broken_disk [] "data/RAGGED.csv"
  = Raise ParserError.
Proof.
  split.
  - apply (init_raises_first_read_error Samples.broken_disk [] "data"
             ["AAPL"] "ZERO" ["GOOG"; "AAPL"] "data/RAGGED.csv" EmptyDataError).
    + intros s' Hs'. apply list_elem_of_singleton in Hs' as ->.
      eexists. vm_compute. reflexivity.
    + vm_compute. reflexivity.
  - apply (init_raises_first_read_error Samples.broken_disk [] "data"
             ["AAPL"] "ZERO" ["GOOG"; "AAPL"] "data/RAGGED.csv" ParserError).
    vm_compute. reflexivity.
Defined.

Lemma init_repeated_symbol_witness :
  HistoricCSVDataHandler.__init__ Samples.good_disk [] "data" ["AAPL"; "AAPL"]
  = Raise AttributeError.
Proof.
  apply init_repeated_symbol.
  - intros s Hs. apply elem_of_cons in Hs as [->|Hs];
      [|apply list_elem_of_singleton in Hs as ->]; eexists; vm_compute; reflexivity.
  - intros H. apply NoDup_cons in H as [Hn _]. apply Hn. left.
Defined.

Lemma fresh_handler_has_no_bars_witness :
  let h := Samples.historic_over Samples.good_disk ["AAPL"; "MSFT"] in
  let g := Samples.simple_over Samples.good_disk "data/MSFT.csv" in
  (HistoricCSVDataHandler.symbol_list h = ["AAPL"; "MSFT"] /\
   HistoricCSVDataHandler.events h = [] /\
   HistoricCSVDataHandler.continue_backtest h = true /\
   forall s N, s ∈ ["AAPL"; "MSFT"] ->
     HistoricCSVDataHandler.get_latest_bars h s N = (Some [], [])) /\
  (SimpleCSVHandler.events g = [] /\
   SimpleCSVHandler.continue_backtest g = true /\
   forall symbol N, SimpleCSVHandler.get_latest_bars g symbol N = []).
Proof.
  intros h g.
  destruct (fresh_handler_has_no_bars Samples.good_disk [] "data" ["AAPL"; "MSFT"]
              h "data/MSFT.csv" g) as [H1 H2].
  split.
  - apply H1. vm_compute. reflexivity.
  - apply H2. vm_compute. reflexivity.
Defined.

Lemma series_follows_first_symbol_witness :
  let h := Samples.historic_over Samples.good_disk ["MSFT"; "AAPL"] in
  let df0 := reset_index (dropna Samples.long_table) in
  let df := reset_index (dropna Samples.short_table) in
  length (Feed.series h "AAPL") = length (values df0) /\
  forall k, k < length (values df0) ->
    exists row,
      values df !! Nat.min k (length (values df) - 1) = Some row /\
      Feed.series h "AAPL" !! k = Some (Z.of_nat k, row).
Proof.
  intros h df0 df.
  apply (series_follows_first_symbol Samples.good_disk [] "data" "MSFT" ["AAPL"]
           h "AAPL" df0 df).
  - vm_compute. reflexivity.
  - set_solver.
  - vm_compute. reflexivity.
  - vm_compute. reflexivity.
  - discriminate.
Defined.

Lemma series_of_empty_file_is_missing_witness :
  let h := Samples.historic_over Samples.gap_disk ["MSFT"; "GAP"] in
  Feed.series h "GAP" !! 1 = Some (1%Z, replicate 7 NaN).
Proof.
  intros h.
  apply (series_of_empty_file_is_missing Samples.gap_disk [] "data" "MSFT" ["GAP"]
           h "GAP" (reset_index (dropna Samples.long_table))
           (reset_index (dropna Samples.gap_table)) 1).
  - vm_compute. reflexivity.
  - set_solver.
  - vm_compute. reflexivity.
  - vm_compute. reflexivity.
  - reflexivity.
  - simpl. lia.
Defined.

Lemma history_is_prefix_of_series_witness :
  let h0 := Samples.historic_over Samples.good_disk ["AAPL"; "MSFT"] in
  Feed.History (Feed.update_bars_n 3 h0) "MSFT"
  = take 3 (Feed.bar_of "MSFT" <$> Feed.series h0 "MSFT") /\
  Feed.series (Feed.update_bars_n 3 h0) "MSFT" = drop 3 (Feed.series h0 "MSFT").
Proof.
  intros h0.
  apply (history_is_prefix_of_series Samples.good_disk [] "data" ["AAPL"; "MSFT"]).
  - apply good_disk_seven_columns.
  - vm_compute. reflexivity.
  - set_solver.
Defined.

Lemma continue_backtest_until_first_file_ends_witness :
  let h0 := Samples.historic_over Samples.good_disk ["MSFT"; "AAPL"] in
  let df0 := reset_index (dropna Samples.long_table) in
  HistoricCSVDataHandler.events (Feed.update_bars_n 3 h0)
  = [] ++ replicate 3 MarketEvent /\
  HistoricCSVDataHandler.continue_backtest (Feed.update_bars_n 3 h0)
  = (3 <=? length (values df0)).
Proof.
  intros h0 df0.
  apply (continue_backtest_until_first_file_ends
           Samples.good_disk [] "data" "MSFT" ["AAPL"]).
  - apply good_disk_seven_columns.
  - vm_compute. reflexivity.
  - vm_compute. reflexivity.
Defined.

Lemma histories_grow_in_lockstep_witness :
  let h0 := Samples.historic_over Samples.good_disk ["MSFT"; "AAPL"] in
  let df0 := reset_index (dropna Samples.long_table) in
  length (Feed.History (Feed.update_bars_n 5 h0) "AAPL")
  = Nat.min 5 (length (values df0)).
Proof.
  intros h0 df0.
  apply (histories_grow_in_lockstep
           Samples.good_disk [] "data" "MSFT" ["AAPL"]).
  - apply good_disk_seven_columns.
  - vm_compute. reflexivity.
  - vm_compute. reflexivity.
  - set_solver.
Defined.

Lemma empty_symbol_list_never_stops_witness :
  let h0 := Samples.historic_over Samples.good_disk [] in
  HistoricCSVDataHandler.continue_backtest (Feed.update_bars_n 4 h0) = true /\
  HistoricCSVDataHandler.events (Feed.update_bars_n 4 h0)
  = [] ++ replicate 4 MarketEvent.
Proof.
  intros h0.
  apply (empty_symbol_list_never_stops Samples.good_disk [] "data").
  vm_compute. reflexivity.
Defined.

Lemma simple_handler_streams_the_file_witness :
  let g0 := Samples.simple_over Samples.good_disk "data/MSFT.csv" in
  SimpleCSVHandler.latest_symbol_data (SimpleFeed.update_bars_n 3 g0)
  = take 3 (SimpleFeed.bar_of <$> SimpleFeed.series g0) /\
  SimpleCSVHandler.events (SimpleFeed.update_bars_n 3 g0)
  = [] ++ replicate 3 MarketEvent /\
  SimpleCSVHandler.continue_backtest (SimpleFeed.update_bars_n 3 g0)
  = (3 <=? length (SimpleFeed.series g0)).
Proof.
  intros g0.
  apply (simple_handler_streams_the_file Samples.good_disk [] "data/MSFT.csv").
  - apply good_disk_seven_columns.
  - vm_compute. reflexivity.
Defined.

Lemma continue_backtest_stays_false_witness :
  let h := Feed.update_bars_n 2 (Samples.historic_over Samples.good_disk ["AAPL"]) in
  let g := SimpleFeed.update_bars_n 3 (Samples.simple_over Samples.good_disk "data/MSFT.csv") in
  HistoricCSVDataHandler.continue_backtest (Feed.update_bars_n 5 h) = false /\
  SimpleCSVHandler.continue_backtest (SimpleFeed.update_bars_n 5 g) = false.
Proof.
  intros h g.
  destruct (continue_backtest_stays_false h g 5) as [H1 H2].
  split.
  - apply H1. vm_compute. reflexivity.
  - apply H2. vm_compute. reflexivity.
Defined.

Lemma a_raise_ends_the_cursor_witness :
  let b := (0%Z, [CStr "2020-01-02"; CNum 10]) in
  let g := Samples.simple_over Samples.disk "data/BAD.csv" in
  let g1 := (SimpleCSVHandler.update_bars g).1 in
  (Cursor.advance "BAD"
     (Cursor.after "BAD" 2
        (GEN_CLOSED, Some (HistoricCSVDataHandler.RowIter [])))).1
  = Raise StopIteration /\
  ((SimpleCSVHandler.update_bars g1).2 = None /\
   SimpleCSVHandler.continue_backtest (SimpleCSVHandler.update_bars g1).1 = false /\
   SimpleCSVHandler.latest_symbol_data (SimpleCSVHandler.update_bars g1).1
   = SimpleCSVHandler.latest_symbol_data g /\
   SimpleCSVHandler.events (SimpleCSVHandler.update_bars g1).1
   = SimpleCSVHandler.events g ++ [MarketEvent]).
Proof.
  intros b g g1.
  destruct (a_raise_ends_the_cursor
              "BAD" (GEN_CREATED, Some (HistoricCSVDataHandler.RowIter [b]))
              (GEN_CLOSED, Some (HistoricCSVDataHandler.RowIter []))
              IndexError IndexError 2 g) as [H1 H2].
  split.
  - apply H1. reflexivity.
  - apply H2. vm_compute. reflexivity.
Defined.

Lemma get_latest_bars_returns_own_bars_witness :
  exists fields,
    CStr "MSFT" :: Samples.quote "2020-01-02" 20 = CStr "MSFT" :: fields /\
    length fields = 7.
Proof.
  apply (get_latest_bars_returns_own_bars Samples.good_disk
           (Feed.update_bars_n 1 (Samples.historic_over Samples.good_disk ["AAPL"; "MSFT"]))
           "MSFT" 1 [CStr "MSFT" :: Samples.quote "2020-01-02" 20]).
  - apply reachable_update_bars_n, sample_historic_reachable.
  - vm_compute. reflexivity.
  - left.
Defined.

Lemma get_latest_bars_positive_witness :
  let h := Feed.update_bars_n 2 (Samples.historic_over Samples.good_disk ["MSFT"]) in
  let g := SimpleFeed.update_bars_n 2 (Samples.simple_over Samples.good_disk "data/MSFT.csv") in
  let bars_list := [CStr "MSFT" :: Samples.quote "2020-01-02" 20;
                    CStr "MSFT" :: Samples.quote "2020-01-06" 22] in
  (HistoricCSVDataHandler.get_latest_bars h "MSFT" 1
   = (Some (drop (length bars_list - Z.to_nat 1) bars_list), []) /\
   length (drop (length bars_list - Z.to_nat 1) bars_list)
   = Nat.min (Z.to_nat 1) (length bars_list)) /\
  (SimpleCSVHandler.get_latest_bars g None 1
   = drop (length (SimpleCSVHandler.latest_symbol_data g) - Z.to_nat 1)
          (SimpleCSVHandler.latest_symbol_data g) /\
   length (SimpleCSVHandler.get_latest_bars g None 1)
   = Nat.min (Z.to_nat 1) (length (SimpleCSVHandler.latest_symbol_data g))).
Proof.
  intros h g bars_list.
  apply (get_latest_bars_positive h "MSFT" bars_list g None 1).
  - lia.
  - vm_compute. reflexivity.
Defined.

Lemma get_latest_bars_negative_count_witness :
  let h := Feed.update_bars_n 2 (Samples.historic_over Samples.good_disk ["MSFT"]) in
  let g := SimpleFeed.update_bars_n 2 (Samples.simple_over Samples.good_disk "data/MSFT.csv") in
  let bars_list := [CStr "MSFT" :: Samples.quote "2020-01-02" 20;
                    CStr "MSFT" :: Samples.quote "2020-01-06" 22] in
  HistoricCSVDataHandler.get_latest_bars h "MSFT" (-1)
  = (Some (drop (Z.to_nat (- -1)) bars_list), []) /\
  SimpleCSVHandler.get_latest_bars g None (-1)
  = drop (Z.to_nat (- -1)) (SimpleCSVHandler.latest_symbol_data g).
Proof.
  intros h g bars_list.
  destruct (get_latest_bars_negative_count h "MSFT" bars_list g None (-1)
              ltac:(lia)) as [H1 H2].
  split.
  - apply H1. vm_compute. reflexivity.
  - apply H2.
Defined.

Lemma served_bars_have_no_missing_cell_witness :
  Feed.complete (CStr "MSFT" :: Samples.quote "2020-01-06" 22) /\
  Feed.complete (Samples.quote "2020-01-06" 22).
Proof.
  split.
  - destruct (served_bars_have_no_missing_cell
                Samples.good_disk [] "data" "MSFT" []
                (Samples.historic_over Samples.good_disk ["MSFT"])
                "MSFT" (reset_index (dropna Samples.long_table)) "data/MSFT.csv"
                (Samples.simple_over Samples.good_disk "data/MSFT.csv") 2
                (CStr "MSFT" :: Samples.quote "2020-01-06" 22)
                good_disk_seven_columns) as [H3 _].
    apply H3.
    + vm_compute. reflexivity.
    + set_solver.
    + vm_compute. reflexivity.
    + discriminate.
    + vm_compute. right. left.
  - destruct (served_bars_have_no_missing_cell
                Samples.good_disk [] "data" "MSFT" []
                (Samples.historic_over Samples.good_disk ["MSFT"])
                "MSFT" (reset_index (dropna Samples.long_table)) "data/MSFT.csv"
                (Samples.simple_over Samples.good_disk "data/MSFT.csv") 2
                (Samples.quote "2020-01-06" 22)
                good_disk_seven_columns) as [_ H2].
    apply H2.
    + vm_compute. reflexivity.
    + vm_compute. right. left.
Defined.
